(** * PuppetDB dynamic inventory (contrib/inventory/puppetdb.py)

    A shallow embedding of the inventory script: the Python values it
    handles, the fragment of the [re] module it calls, the configuration
    loader, the query builders and the inventory assembler of [main],
    followed by the properties of the specification. *)

From Stdlib Require Import ZArith Ascii String List Bool Lia.
From stdpp Require Import gmap strings list fin_maps sorting pretty.

Set Warnings "-register-all".

Local Open Scope string_scope.
Local Open Scope Z_scope.

(** ** Python values *)

(** A float is carried by what [repr] prints for it: Python reads that
    text back to the same float, so finite floats and their literals
    correspond one to one. *)
Inductive pyfloat :=
  | FNaN
  | FInf (neg : bool)
  | FFinite (repr : string).

(** The values that YAML, the PuppetDB client and the script itself
    produce.  A [str] and a [unicode] both carry a sequence of 8-bit
    characters. *)
Inductive pyval :=
  | VNone
  | VBool (b : bool)
  | VInt (n : Z)
  | VLong (n : Z)
  | VFloat (f : pyfloat)
  | VStr (s : string)
  | VUnicode (s : string)
  | VList (l : list pyval)
  | VDict (d : gmap string pyval).

Inductive pytype :=
  | TNone | TBool | TInt | TLong | TFloat | TStr | TUnicode | TList | TDict.

#[global] Instance pytype_eq_dec : EqDecision pytype.
Proof. solve_decision. Defined.

#[global] Instance pyfloat_eq_dec : EqDecision pyfloat.
Proof. solve_decision. Defined.

(** [type(v)] *)
Definition type_of (v : pyval) : pytype :=
  match v with
  | VNone => TNone
  | VBool _ => TBool
  | VInt _ => TInt
  | VLong _ => TLong
  | VFloat _ => TFloat
  | VStr _ => TStr
  | VUnicode _ => TUnicode
  | VList _ => TList
  | VDict _ => TDict
  end.

Definition float_is_zero (f : pyfloat) : bool :=
  match f with
  | FFinite r => bool_decide (r = "0.0") || bool_decide (r = "-0.0")
  | _ => false
  end.

(** Truth value of an object, as [if v] and [v if v else w] test it. *)
Definition truthy (v : pyval) : bool :=
  match v with
  | VNone => false
  | VBool b => b
  | VInt n | VLong n => negb (n =? 0)
  | VFloat f => negb (float_is_zero f)
  | VStr s | VUnicode s => negb (bool_decide (s = ""))
  | VList l => negb (bool_decide (length l = 0%nat))
  | VDict d => negb (bool_decide (size d = 0%nat))
  end.

(** ** Exceptions *)

Inductive exn :=
  | KeyError (key : string)
  | ValueError (msg : string)
  | RuntimeError (msg : string)
  | TypeError
  | AttributeError
  | ReError
  | YAMLError
  | UnicodeDecodeError.

Inductive result (A : Type) :=
  | Ok (a : A)
  | Raise (e : exn).
Arguments Ok {A} a.
Arguments Raise {A} e.

#[global] Instance result_ret : MRet result := fun _ a => Ok a.

#[global] Instance result_bind : MBind result := fun _ _ k r =>
  match r with
  | Ok a => k a
  | Raise e => Raise e
  end.

(** [d[key]] on an object that should be a dictionary. *)
Definition getitem (v : pyval) (key : string) : result pyval :=
  match v with
  | VDict d =>
      match d !! key with
      | Some x => Ok x
      | None => Raise (KeyError key)
      end
  | _ => Raise TypeError
  end.

(** [d[key] = x] *)
Definition setitem (v : pyval) (key : string) (x : pyval) : result pyval :=
  match v with
  | VDict d => Ok (VDict (<[key := x]> d))
  | _ => Raise TypeError
  end.

(** ** The [re] module, on the fragment of its pattern syntax used here *)

Module Re.

(** Parsed patterns: literals, [.], [^], [$], sequence, [|] and the
    greedy [*]. *)
Inductive regex :=
  | Eps
  | Lit (c : ascii)
  | AnyChar
  | Bol
  | Eol
  | Cat (r1 r2 : regex)
  | Alt (r1 r2 : regex)
  | Star (r : regex).

Definition newline : ascii := "010"%char.

(** Characters with a meaning of their own in a pattern. *)
Definition special (c : ascii) : bool :=
  bool_decide (c ∈ [".";"^";"$";"*";"+";"?";"{";"}";"[";"]";"092";"|";"(";")"]%char).

(** State of the pattern reader: the finished branches of the
    alternation, the finished items of the current branch, the last atom
    (a [*] may still follow it) and whether a backslash was just read. *)
Record pstate := PState {
  ps_alts : list regex;
  ps_items : list regex;
  ps_atom : option regex;
  ps_esc : bool
}.

Definition seq_of (items : list regex) : regex := foldr Cat Eps items.

Definition flush (st : pstate) : list regex :=
  match ps_atom st with
  | Some a => ps_items st ++ [a]
  | None => ps_items st
  end.

Definition pstep (st : pstate) (c : ascii) : option pstate :=
  if ps_esc st then
    if special c then Some (PState (ps_alts st) (flush st) (Some (Lit c)) false)
    else None
  else if bool_decide (c = "092"%char) then
    Some (PState (ps_alts st) (flush st) None true)
  else if bool_decide (c = "|"%char) then
    Some (PState (ps_alts st ++ [seq_of (flush st)]) [] None false)
  else if bool_decide (c = "*"%char) then
    match ps_atom st with
    | Some a => Some (PState (ps_alts st) (ps_items st ++ [Star a]) None false)
    | None => None
    end
  else if bool_decide (c = "."%char) then
    Some (PState (ps_alts st) (flush st) (Some AnyChar) false)
  else if bool_decide (c = "^"%char) then
    Some (PState (ps_alts st) (flush st ++ [Bol]) None false)
  else if bool_decide (c = "$"%char) then
    Some (PState (ps_alts st) (flush st ++ [Eol]) None false)
  else if special c then None
  else Some (PState (ps_alts st) (flush st) (Some (Lit c)) false).

Fixpoint pscan (st : pstate) (s : string) : option pstate :=
  match s with
  | EmptyString => Some st
  | String c s' =>
      match pstep st c with
      | Some st' => pscan st' s'
      | None => None
      end
  end.

Definition alt_of (branches : list regex) (last : regex) : regex :=
  foldr Alt last branches.

(** [sre_parse.parse]: [None] for a pattern that is malformed or uses
    syntax outside the fragment. *)
Definition parse (pattern : string) : option regex :=
  match pscan (PState [] [] None false) pattern with
  | Some st =>
      if ps_esc st then None
      else Some (alt_of (ps_alts st) (seq_of (flush st)))
  | None => None
  end.

(** The backtracking matcher, with a continuation for what follows the
    pattern.  [bos] tells whether the position is the beginning of the
    subject string; the result is the text left after the first match in
    priority order. *)
Definition cont := bool -> string -> option string.

Fixpoint star_loop (body : cont -> cont) (k : cont) (fuel : nat)
    (bos : bool) (s : string) : option string :=
  match fuel with
  | O => k bos s
  | S fuel' =>
      match body (fun bos' s' =>
                    if (String.length s' <? String.length s)%nat
                    then star_loop body k fuel' bos' s'
                    else None) bos s with
      | Some rest => Some rest
      | None => k bos s
      end
  end.

Fixpoint rmatch (r : regex) (k : cont) (bos : bool) (s : string) : option string :=
  match r with
  | Eps => k bos s
  | Lit c =>
      match s with
      | String c' s' => if bool_decide (c = c') then k false s' else None
      | EmptyString => None
      end
  | AnyChar =>
      match s with
      | String c' s' => if bool_decide (c' = newline) then None else k false s'
      | EmptyString => None
      end
  | Bol => if bos then k bos s else None
  | Eol =>
      if bool_decide (s = "") || bool_decide (s = String newline "")
      then k bos s else None
  | Cat r1 r2 => rmatch r1 (rmatch r2 k) bos s
  | Alt r1 r2 =>
      match rmatch r1 k bos s with
      | Some rest => Some rest
      | None => rmatch r2 k bos s
      end
  | Star r' => star_loop (rmatch r') k (String.length s) bos s
  end.

(** Length of the match of [r] that starts at the current position. *)
Definition match_here (r : regex) (bos : bool) (s : string) : option nat :=
  match rmatch r (fun _ rest => Some rest) bos s with
  | Some rest => Some (String.length s - String.length rest)%nat
  | None => None
  end.

(** The loop of [pattern.sub] with a replacement free of escapes, one
    position of the subject at a time.  [skip] counts the characters of
    the current match still to drop; [after] holds when a non-empty match
    ended exactly here, where an empty match is ignored. *)
Fixpoint sub_loop (r : regex) (repl : string) (bos : bool) (skip : nat)
    (after : bool) (s : string) : string :=
  match skip with
  | S skip' =>
      match s with
      | String _ s' => sub_loop r repl false skip' true s'
      | EmptyString => ""
      end
  | O =>
      match match_here r bos s with
      | Some (S n) =>
          repl ++
          match s with
          | String _ s' => sub_loop r repl false n true s'
          | EmptyString => ""
          end
      | Some O =>
          (if after then "" else repl) ++
          match s with
          | String c s' => String c (sub_loop r repl false O false s')
          | EmptyString => ""
          end
      | None =>
          match s with
          | String c s' => String c (sub_loop r repl false O false s')
          | EmptyString => ""
          end
      end
  end.

(** [re.sub(pattern, repl, string)] *)
Definition sub (pattern repl s : string) : result string :=
  match parse pattern with
  | Some r => Ok (sub_loop r repl true 0 false s)
  | None => Raise ReError
  end.

(** [re.search(pattern, string) is not None] on a parsed pattern. *)
Fixpoint search_from (r : regex) (bos : bool) (s : string) : bool :=
  match match_here r bos s with
  | Some _ => true
  | None =>
      match s with
      | String _ s' => search_from r false s'
      | EmptyString => false
      end
  end.

Definition search (r : regex) (s : string) : bool := search_from r true s.

End Re.

(** [str.lower]: the upper-case ASCII letters are moved to lower case. *)
Definition lower_char (c : ascii) : ascii :=
  let n := nat_of_ascii c in
  if ((65 <=? n) && (n <=? 90))%nat then ascii_of_nat (n + 32) else c.

Fixpoint lower (s : string) : string :=
  match s with
  | EmptyString => EmptyString
  | String c s' => String (lower_char c) (lower s')
  end.

(** ** Configuration *)

Definition GLOBAL_CONFIG : string := "/etc/ansible/puppetdb.yml".

Definition DEFAULT_LAST_REPORT : Z := 2.

Definition NODE_ENVS : list string :=
  ["catalog_environment"; "facts_environment"; "report_environment"].

Definition FACT_VALUE_TYPES : list pytype := [TStr; TUnicode; TInt; TFloat; TBool].

(** What the script sees of the file system: [os.path.isfile],
    [os.access(_, os.R_OK)] and the outcome of opening a file and running
    [yaml.safe_load] on it. *)
Record filesystem := FileSystem {
  isfile : string -> bool;
  access_R_OK : string -> bool;
  safe_load : string -> result pyval
}.

Section Config.

(** [os.environ['HOME']] *)
Variable HOME : string.
Variable fs : filesystem.

Definition HOME_CONFIG : string := HOME ++ "/.puppetdb.yml".

Definition CONFIG_FILES : list string := [HOME_CONFIG; GLOBAL_CONFIG].

Definition from_yaml (path : string) : result pyval := safe_load fs path.

(** The [for] loop of [parse_config], leaving at the first [break]. *)
Fixpoint parse_config_loop (cfg : pyval) (files : list string) : result pyval :=
  match files with
  | [] => Ok cfg
  | f :: files' =>
      if isfile fs f && access_R_OK fs f then from_yaml f
      else parse_config_loop cfg files'
  end.

Definition parse_config : result pyval :=
  parse_config_loop (VDict ∅) CONFIG_FILES.

End Config.

(** ** Query builder *)

(** The predicate trees of [pypuppetdb.QueryBuilder]. *)
Inductive operator :=
  | AndOperator (ops : list operator)
  | EqualsOperator (field : string) (value : pyval)
  | RegexOperator (field : string) (value : pyval)
  | InOperator (field : string) (array : pyval)
  | NullOperator (field : string) (value : bool).

(** A keyword argument of a client call: a plain value or a query. *)
Inductive arg :=
  | ArgValue (v : pyval)
  | ArgQuery (op : operator).

Definition resource_query_args (cfg : pyval) : result (gmap string arg) :=
  environment ← getitem cfg "environment";
  resource_type ← getitem cfg "resource_type";
  title_regexp ← getitem cfg "title_regexp";
  let op := AndOperator [EqualsOperator "environment" environment;
                         EqualsOperator "type" resource_type;
                         RegexOperator "title" title_regexp] in
  Ok (<["query" := ArgQuery op]> ∅).

Definition node_query_args (cfg : pyval) : result (gmap string arg) :=
  last_report ← getitem cfg "last_report";
  let unreported :=
    if truthy last_report then last_report else VInt DEFAULT_LAST_REPORT in
  let args : gmap string arg :=
    <["unreported" := ArgValue unreported]>
      (<["with_status" := ArgValue (VBool true)]> ∅) in
  environment ← getitem cfg "environment";
  deactivated ← getitem cfg "deactivated";
  expired ← getitem cfg "expired";
  let op := AndOperator
    (map (fun env => EqualsOperator env environment) NODE_ENVS ++
     [NullOperator "deactivated" (negb (truthy deactivated));
      NullOperator "expired" (negb (truthy expired))]) in
  Ok (<["query" := ArgQuery op]> args).

Definition facts_query_args (node : string) (cfg : pyval) : result (gmap string arg) :=
  environment ← getitem cfg "environment";
  facts_as_hostvars ← getitem cfg "facts_as_hostvars";
  let op := AndOperator [EqualsOperator "environment" environment;
                         EqualsOperator "certname" (VUnicode node);
                         InOperator "name" facts_as_hostvars] in
  Ok (<["query" := ArgQuery op]> ∅).

(** ** Records returned by the PuppetDB client *)

Module Node.
Record t := Build { name : string; report_timestamp : pyval }.
End Node.

Module Fact.
Record t := Build { name : string; value : pyval }.
End Fact.

Module Resource.
Record t := Build { node : string; name : string }.
End Resource.

(** The client object: each endpoint answers a call by a list of records.
    The client decodes JSON, so the names in its records are [unicode]
    objects. *)
Record PuppetDB := {
  nodes : gmap string arg -> list Node.t;
  facts : gmap string arg -> list Fact.t;
  resources : gmap string arg -> list Resource.t
}.

Definition fact_error (name : string) : exn :=
  ValueError ("Value of fact '" ++ name ++ "' is not allowed (only primitive types)").

(** The loop of [hostvars_from_facts] over the facts still to read. *)
Fixpoint hostvars_loop (host_vars : gmap string pyval) (facts : list Fact.t)
    : result (gmap string pyval) :=
  match facts with
  | [] => Ok host_vars
  | fact :: facts' =>
      if bool_decide (type_of (Fact.value fact) ∉ FACT_VALUE_TYPES)
      then Raise (fact_error (Fact.name fact))
      else hostvars_loop (<[Fact.name fact := Fact.value fact]> host_vars) facts'
  end.

Definition hostvars_from_facts (facts : list Fact.t) : result (gmap string pyval) :=
  hostvars_loop ∅ facts.

(** ** The [json] module: [dumps(_, sort_keys=True, indent=2)] and [loads] *)

Module Json.

Definition dquote : ascii := "034"%char.
Definition backslash : ascii := "092"%char.

(** A JSON text as a tree: what the encoder writes and the decoder reads,
    the members of an object in the order of the text. *)
Inductive jtree :=
  | JNull
  | JBool (b : bool)
  | JInt (n : Z)
  | JFloat (f : pyfloat)
  | JString (s : string)
  | JArray (elements : list jtree)
  | JObject (members : list (string * jtree)).

(** *** Encoder *)

(** An item put at its place among items in the order of their keys. *)
Fixpoint insert_item {A} (kv : string * A) (items : list (string * A)) : list (string * A) :=
  match items with
  | [] => [kv]
  | kv' :: items' =>
      if (kv.1 <=? kv'.1)%string then kv :: items
      else kv' :: insert_item kv items'
  end.

(** [sorted(dct.items(), key=lambda kv: kv[0])], each value already
    passed through [f]. *)
Definition items_of {A} (f : pyval -> A) (dct : gmap string pyval) : list (string * A) :=
  map_fold (fun k v items => insert_item (k, f v) items) [] dct.

(** The dispatch of [_iterencode] on the type of the object. *)
Fixpoint tree_of (o : pyval) : jtree :=
  match o with
  | VStr s | VUnicode s => JString s
  | VNone => JNull
  | VBool b => JBool b
  | VInt n | VLong n => JInt n
  | VFloat f => JFloat f
  | VList lst => JArray (map tree_of lst)
  | VDict dct => JObject (items_of tree_of dct)
  end.

Definition hex_digit (n : N) : ascii :=
  match n with
  | 0 => "0" | 1 => "1" | 2 => "2" | 3 => "3" | 4 => "4" | 5 => "5"
  | 6 => "6" | 7 => "7" | 8 => "8" | 9 => "9" | 10 => "a" | 11 => "b"
  | 12 => "c" | 13 => "d" | 14 => "e" | _ => "f"
  end%char%N.

(** The escape with [u] and four hexadecimal digits of a character. *)
Definition escape_u (n : N) : string :=
  String backslash
    (String "u" (String "0" (String "0"
      (String (hex_digit (n / 16)) (String (hex_digit (n mod 16)) ""))))).

(** [ESCAPE_DCT] and the fallback of [encode_basestring_ascii]: the
    printable ASCII characters other than the quote and the backslash
    stand for themselves. *)
Definition escape_char (c : ascii) : string :=
  let n := N_of_ascii c in
  if bool_decide (c = dquote) then String backslash (String dquote "")
  else if bool_decide (c = backslash) then String backslash (String backslash "")
  else if bool_decide (n = 10%N) then String backslash "n"
  else if bool_decide (n = 13%N) then String backslash "r"
  else if bool_decide (n = 9%N) then String backslash "t"
  else if bool_decide (n = 8%N) then String backslash "b"
  else if bool_decide (n = 12%N) then String backslash "f"
  else if ((32 <=? n) && (n <=? 126))%N then String c ""
  else escape_u n.

Fixpoint escape_chars (s : string) : string :=
  match s with
  | EmptyString => ""
  | String c s' => escape_char c ++ escape_chars s'
  end.

Definition encode_basestring_ascii (s : string) : string :=
  String dquote (escape_chars s ++ String dquote "").

Definition floatstr (f : pyfloat) : string :=
  match f with
  | FNaN => "NaN"
  | FInf false => "Infinity"
  | FInf true => "-Infinity"
  | FFinite r => r
  end.

Fixpoint spaces (n : nat) : string :=
  match n with
  | O => ""
  | S n' => String " " (spaces n')
  end.

Definition newline_indent (indent level : nat) : string :=
  String Re.newline (spaces (indent * level)).

Definition item_separator : string := ", ".
Definition key_separator : string := ": ".

(** Chunks joined by the separator, as the encoder yields them. *)
Fixpoint join (sep : string) (chunks : list string) : string :=
  match chunks with
  | [] => ""
  | [c] => c
  | c :: chunks' => c ++ sep ++ join sep chunks'
  end.

Section Encoder.

Variable indent : nat.

Definition wrap (opening closing : string) (level : nat) (chunks : list string) : string :=
  match chunks with
  | [] => opening ++ closing
  | _ =>
      opening ++ newline_indent indent (S level) ++
      join (item_separator ++ newline_indent indent (S level)) chunks ++
      newline_indent indent level ++ closing
  end.

(** The text that [_iterencode] yields at a nesting level, its chunks
    joined. *)
Fixpoint render (level : nat) (t : jtree) : string :=
  match t with
  | JString s => encode_basestring_ascii s
  | JNull => "null"
  | JBool true => "true"
  | JBool false => "false"
  | JInt n => pretty n
  | JFloat f => floatstr f
  | JArray elements => wrap "[" "]" level (map (render (S level)) elements)
  | JObject members =>
      wrap "{" "}" level
        (map (fun kv => encode_basestring_ascii kv.1 ++ key_separator ++ render (S level) kv.2)
           members)
  end.

End Encoder.

Definition is_ascii (s : string) : bool :=
  forallb (fun c => (N_of_ascii c <? 128)%N) (list_ascii_of_string s).

(** The encoder decodes a [str] that has a byte above 0x7f as UTF-8.
    That decoding is outside this model, which answers such a [str] with
    an error whatever its bytes are. *)
Fixpoint encodable (o : pyval) : bool :=
  match o with
  | VStr s => is_ascii s
  | VList lst => forallb encodable lst
  | VDict dct => map_fold (fun _ v ok => encodable v && ok) true dct
  | _ => true
  end.

Definition dumps (o : pyval) : result string :=
  if encodable o then Ok (render 2 0 (tree_of o)) else Raise UnicodeDecodeError.

(** *** Decoder *)

Definition is_ws (c : ascii) : bool :=
  bool_decide (c = " "%char) || bool_decide (c = "009"%char) ||
  bool_decide (c = "010"%char) || bool_decide (c = "013"%char).

(** [WHITESPACE.match(s, end).end()] *)
Fixpoint skip_ws (s : string) : string :=
  match s with
  | String c s' => if is_ws c then skip_ws s' else s
  | EmptyString => ""
  end.

Definition is_digit (c : ascii) : bool :=
  let n := N_of_ascii c in ((48 <=? n) && (n <=? 57))%N.

Definition hex_value (c : ascii) : option N :=
  let n := N_of_ascii c in
  if ((48 <=? n) && (n <=? 57))%N then Some (n - 48)%N
  else if ((97 <=? n) && (n <=? 102))%N then Some (n - 87)%N
  else if ((65 <=? n) && (n <=? 70))%N then Some (n - 55)%N
  else None.

(** [BACKSLASH]: the characters of the short escapes. *)
Definition unescape (c : ascii) : option ascii :=
  if bool_decide (c = dquote) then Some dquote
  else if bool_decide (c = backslash) then Some backslash
  else if bool_decide (c = "/"%char) then Some "/"%char
  else if bool_decide (c = "b"%char) then Some "008"%char
  else if bool_decide (c = "f"%char) then Some "012"%char
  else if bool_decide (c = "n"%char) then Some "010"%char
  else if bool_decide (c = "r"%char) then Some "013"%char
  else if bool_decide (c = "t"%char) then Some "009"%char
  else None.

(** Where [scanstring] stands in a string: between characters, after a
    backslash, or inside a [u] escape with some digits still to read and
    the value of the digits read. *)
Inductive smode :=
  | Plain
  | Escaped
  | Hex (todo : nat) (value : N).

Definition bad_string : exn := ValueError "Invalid string".

(** [scanstring] from just after the opening quote: the text of the
    string and what follows its closing quote.  Control characters are
    refused as in strict mode.  Characters above 0xff do not exist in
    this model: an escape that names one is answered with an error, and
    so is a byte above 0x7f in the text. *)
Fixpoint scanstring (mode : smode) (s : string) : result (string * string) :=
  match s with
  | EmptyString => Raise bad_string
  | String c s' =>
      match mode with
      | Plain =>
          if bool_decide (c = dquote) then Ok ("", s')
          else if bool_decide (c = backslash) then scanstring Escaped s'
          else if ((N_of_ascii c <? 32) || (127 <? N_of_ascii c))%N then Raise bad_string
          else '(str, rest) ← scanstring Plain s'; Ok (String c str, rest)
      | Escaped =>
          if bool_decide (c = "u"%char) then scanstring (Hex 4 0) s'
          else
            match unescape c with
            | Some c' => '(str, rest) ← scanstring Plain s'; Ok (String c' str, rest)
            | None => Raise bad_string
            end
      | Hex todo value =>
          match hex_value c with
          | Some d =>
              let value' := (16 * value + d)%N in
              match todo with
              | 1%nat =>
                  if (value' <? 256)%N then
                    '(str, rest) ← scanstring Plain s';
                    Ok (String (ascii_of_N value') str, rest)
                  else Raise bad_string
              | _ => scanstring (Hex (Nat.pred todo) value') s'
              end
          | None => Raise bad_string
          end
      end
  end.

Fixpoint span_digits (s : string) : string * string :=
  match s with
  | String c s' =>
      if is_digit c then let '(ds, rest) := span_digits s' in (String c ds, rest)
      else ("", s)
  | EmptyString => ("", "")
  end.

(** The groups of [NUMBER_RE]: the integer part with its sign, the
    fraction and the exponent, each with what follows it; an empty text
    where the group does not match. *)
Definition scan_int (s : string) : string * string :=
  let '(sign, s1) :=
    match s with
    | String c s1 => if bool_decide (c = "-"%char) then ("-", s1) else ("", s)
    | EmptyString => ("", s)
    end in
  match span_digits s1 with
  | (EmptyString, _) => ("", s)
  | (String c ds, rest) =>
      if bool_decide (c = "0"%char) then (sign ++ "0", ds ++ rest)
      else (sign ++ String c ds, rest)
  end.

Definition scan_frac (s : string) : string * string :=
  match s with
  | String c s1 =>
      if bool_decide (c = "."%char) then
        match span_digits s1 with
        | (EmptyString, _) => ("", s)
        | (ds, rest) => (String c ds, rest)
        end
      else ("", s)
  | EmptyString => ("", s)
  end.

Definition scan_sign (s : string) : string * string :=
  match s with
  | String c s' =>
      if bool_decide (c = "+"%char) || bool_decide (c = "-"%char) then (String c "", s')
      else ("", s)
  | EmptyString => ("", s)
  end.

Definition scan_exp (s : string) : string * string :=
  match s with
  | String c s1 =>
      if bool_decide (c = "e"%char) || bool_decide (c = "E"%char) then
        let '(sign, s2) := scan_sign s1 in
        match span_digits s2 with
        | (EmptyString, _) => ("", s)
        | (ds, rest) => (String c (sign ++ ds), rest)
        end
      else ("", s)
  | EmptyString => ("", s)
  end.

Definition digit_value (c : ascii) : Z := Z.of_N (N_of_ascii c) - 48.

Fixpoint digits_value (acc : Z) (ds : string) : Z :=
  match ds with
  | String c ds' => digits_value (10 * acc + digit_value c) ds'
  | EmptyString => acc
  end.

(** [int(integer)] on the text of the integer group. *)
Definition int_of_literal (s : string) : Z :=
  match s with
  | String c ds =>
      if bool_decide (c = "-"%char) then - digits_value 0 ds else digits_value 0 s
  | EmptyString => 0
  end.

(** [match_number] and the choice between [int] and [float].  The float
    is carried by its literal as written, which is the float itself on a
    literal that [repr] printed. *)
Definition scan_number (s : string) : option (jtree * string) :=
  let '(integer, s1) := scan_int s in
  if bool_decide (integer = "") then None
  else
    let '(frac, s2) := scan_frac s1 in
    let '(exp, s3) := scan_exp s2 in
    if bool_decide (frac = "") && bool_decide (exp = "")
    then Some (JInt (int_of_literal integer), s3)
    else Some (JFloat (FFinite (integer ++ frac ++ exp)), s3).

(** The text starts with the keyword: what follows the keyword. *)
Fixpoint keyword (word s : string) : option string :=
  match word with
  | EmptyString => Some s
  | String c word' =>
      match s with
      | String c' s' => if bool_decide (c = c') then keyword word' s' else None
      | EmptyString => None
      end
  end.

Definition no_json : exn := ValueError "No JSON object could be decoded".
Definition too_deep : exn := RuntimeError "maximum recursion depth exceeded".

Section Decoder.

(** Whether [NaN], [Infinity] and [-Infinity] are read, as [loads] does
    although JSON has no such values. *)
Variable constants : bool.

Definition scan_constant (s : string) : result (jtree * string) :=
  if constants then
    match keyword "NaN" s, keyword "Infinity" s, keyword "-Infinity" s with
    | Some rest, _, _ => Ok (JFloat FNaN, rest)
    | _, Some rest, _ => Ok (JFloat (FInf false), rest)
    | _, _, Some rest => Ok (JFloat (FInf true), rest)
    | _, _, _ => Raise no_json
    end
  else Raise no_json.

Definition scan_atom (s : string) : result (jtree * string) :=
  match keyword "null" s, keyword "true" s, keyword "false" s with
  | Some rest, _, _ => Ok (JNull, rest)
  | _, Some rest, _ => Ok (JBool true, rest)
  | _, _, Some rest => Ok (JBool false, rest)
  | _, _, _ =>
      match scan_number s with
      | Some found => Ok found
      | None => scan_constant s
      end
  end.

(** [scan_once], with [JSONObject] and [JSONArray]: [members] starts
    just after the opening quote of a key, [elements] at a value.  The
    fuel bounds the number of calls in a row; [decode] gives two units of
    it for each character of the text, which no text uses up. *)
Fixpoint scan_once (fuel : nat) (s : string) : result (jtree * string) :=
  match fuel with
  | O => Raise too_deep
  | S fuel' =>
      match s with
      | EmptyString => Raise no_json
      | String c s' =>
          if bool_decide (c = dquote) then
            '(str, rest) ← scanstring Plain s'; Ok (JString str, rest)
          else if bool_decide (c = "{"%char) then
            match skip_ws s' with
            | String c1 s1 =>
                if bool_decide (c1 = "}"%char) then Ok (JObject [], s1)
                else if bool_decide (c1 = dquote) then
                  '(pairs, rest) ← members fuel' s1; Ok (JObject pairs, rest)
                else Raise (ValueError "Expecting property name")
            | EmptyString => Raise (ValueError "Expecting property name")
            end
          else if bool_decide (c = "["%char) then
            match skip_ws s' with
            | String c1 s1 =>
                if bool_decide (c1 = "]"%char) then Ok (JArray [], s1)
                else '(values, rest) ← elements fuel' (String c1 s1); Ok (JArray values, rest)
            | EmptyString => Raise no_json
            end
          else scan_atom s
      end
  end
with members (fuel : nat) (s : string) : result (list (string * jtree) * string) :=
  match fuel with
  | O => Raise too_deep
  | S fuel' =>
      '(key, s1) ← scanstring Plain s;
      match skip_ws s1 with
      | String c2 s2 =>
          if bool_decide (c2 = ":"%char) then
            '(value, s3) ← scan_once fuel' (skip_ws s2);
            match skip_ws s3 with
            | String c4 s4 =>
                if bool_decide (c4 = "}"%char) then Ok ([(key, value)], s4)
                else if bool_decide (c4 = ","%char) then
                  match skip_ws s4 with
                  | String c5 s5 =>
                      if bool_decide (c5 = dquote) then
                        '(pairs, rest) ← members fuel' s5; Ok ((key, value) :: pairs, rest)
                      else Raise (ValueError "Expecting property name")
                  | EmptyString => Raise (ValueError "Expecting property name")
                  end
                else Raise (ValueError "Expecting , delimiter")
            | EmptyString => Raise (ValueError "Expecting , delimiter")
            end
          else Raise (ValueError "Expecting : delimiter")
      | EmptyString => Raise (ValueError "Expecting : delimiter")
      end
  end
with elements (fuel : nat) (s : string) : result (list jtree * string) :=
  match fuel with
  | O => Raise too_deep
  | S fuel' =>
      '(value, s1) ← scan_once fuel' s;
      match skip_ws s1 with
      | String c2 s2 =>
          if bool_decide (c2 = "]"%char) then Ok ([value], s2)
          else if bool_decide (c2 = ","%char) then
            '(values, rest) ← elements fuel' (skip_ws s2); Ok (value :: values, rest)
          else Raise (ValueError "Expecting , delimiter")
      | EmptyString => Raise (ValueError "Expecting , delimiter")
      end
  end.

(** [JSONDecoder.decode] up to the tree: leading whitespace, one value,
    and nothing but whitespace after it. *)
Definition decode (s : string) : result jtree :=
  let s0 := skip_ws s in
  '(t, rest) ← scan_once (S (2 * String.length s0)) s0;
  if bool_decide (skip_ws rest = "") then Ok t else Raise (ValueError "Extra data").

End Decoder.

Definition INT_MIN : Z := - 2 ^ 63.
Definition INT_MAX : Z := 2 ^ 63 - 1.

(** The Python object of a tree: text is [unicode], an integer is an
    [int] where it fits and a [long] otherwise, and an object is
    [dict(pairs)], where the last pair of a key wins. *)
Fixpoint dict_items {A} (f : A -> pyval) (pairs : list (string * A))
    (d : gmap string pyval) : gmap string pyval :=
  match pairs with
  | [] => d
  | (k, v) :: pairs' => dict_items f pairs' (<[k := f v]> d)
  end.

Fixpoint of_tree (t : jtree) : pyval :=
  match t with
  | JNull => VNone
  | JBool b => VBool b
  | JInt n => if bool_decide (INT_MIN <= n <= INT_MAX) then VInt n else VLong n
  | JFloat f => VFloat f
  | JString s => VUnicode s
  | JArray elements => VList (map of_tree elements)
  | JObject members => VDict (dict_items of_tree members ∅)
  end.

(** [json.loads] *)
Definition loads (s : string) : result pyval :=
  t ← decode true s; Ok (of_tree t).

(** A text is valid JSON when the decoder reads it without the constants
    that JSON does not have. *)
Definition valid (s : string) : Prop := exists t, decode false s = Ok t.

(** The literal is one that [match_number] reads whole and as a float:
    the shape of what [repr] prints for a finite float. *)
Definition float_literal (r : string) : bool :=
  match scan_number r with
  | Some (JFloat (FFinite r'), EmptyString) => bool_decide (r' = r)
  | _ => false
  end.

(** The floats of the tree are finite. *)
Inductive finite : jtree -> Prop :=
  | finite_null : finite JNull
  | finite_bool b : finite (JBool b)
  | finite_int n : finite (JInt n)
  | finite_float r : float_literal r = true -> finite (JFloat (FFinite r))
  | finite_string s : finite (JString s)
  | finite_array elements :
      (forall t, t ∈ elements -> finite t) -> finite (JArray elements)
  | finite_object members :
      (forall k t, (k, t) ∈ members -> finite t) -> finite (JObject members).

Definition key_le (k1 k2 : string) : Prop := (k1 <=? k2)%string = true.

(** The keys of every object of the tree are in ascending order, each
    key once. *)
Inductive ordered : jtree -> Prop :=
  | ordered_null : ordered JNull
  | ordered_bool b : ordered (JBool b)
  | ordered_int n : ordered (JInt n)
  | ordered_float f : ordered (JFloat f)
  | ordered_string s : ordered (JString s)
  | ordered_array elements :
      (forall t, t ∈ elements -> ordered t) -> ordered (JArray elements)
  | ordered_object members :
      Sorted key_le members.*1 -> NoDup members.*1 ->
      (forall k t, (k, t) ∈ members -> ordered t) -> ordered (JObject members).

(** A character that cannot continue a number. *)
Definition ends_number (c : ascii) : bool :=
  negb (is_digit c || bool_decide (c = "-"%char) || bool_decide (c = "+"%char) ||
        bool_decide (c = "."%char) || bool_decide (c = "e"%char) ||
        bool_decide (c = "E"%char)).

(** The text after a value: nothing, or a character that ends a number. *)
Definition follows (rest : string) : Prop :=
  match rest with
  | EmptyString => True
  | String c _ => ends_number c = true
  end.

(** A character at which a value starts. *)
Definition starts_value (c : ascii) : bool :=
  is_digit c || bool_decide (c = "-"%char) || bool_decide (c = dquote) ||
  bool_decide (c = "{"%char) || bool_decide (c = "["%char) ||
  bool_decide (c = "n"%char) || bool_decide (c = "t"%char) || bool_decide (c = "f"%char).

Definition headed (p : ascii -> bool) (s : string) : Prop :=
  match s with
  | String c _ => p c = true
  | EmptyString => False
  end.

(** The chunk of a member of an object: key, separator, value. *)
Definition item (indent level : nat) (kv : string * jtree) : string :=
  encode_basestring_ascii kv.1 ++ key_separator ++ render indent level kv.2.

(** The decoder reads the text of the tree back as the tree, whatever
    follows it and with any fuel above twice the length of the text. *)
Definition reads_back (constants : bool) (indent level : nat) (t : jtree) : Prop :=
  forall rest fuel,
    follows rest ->
    (2 * String.length (render indent level t ++ rest) < fuel)%nat ->
    scan_once constants fuel (render indent level t ++ rest) = Ok (t, rest).

End Json.

Definition to_json (inv_dict : pyval) : result string := Json.dumps inv_dict.

(** ** Values as the client decodes them *)

(** The values that can come out of a JSON answer, and the ASCII [str]
    objects of the script itself: finite floats carried by a float
    literal, integers within the range of [int], longs beyond it. *)
Inductive json_clean : pyval -> Prop :=
  | clean_None : json_clean VNone
  | clean_Bool b : json_clean (VBool b)
  | clean_Int n : Json.INT_MIN <= n <= Json.INT_MAX -> json_clean (VInt n)
  | clean_Long n : ~ (Json.INT_MIN <= n <= Json.INT_MAX) -> json_clean (VLong n)
  | clean_Float r : Json.float_literal r = true -> json_clean (VFloat (FFinite r))
  | clean_Str s : Json.is_ascii s = true -> json_clean (VStr s)
  | clean_Unicode s : json_clean (VUnicode s)
  | clean_List l : (forall x, x ∈ l -> json_clean x) -> json_clean (VList l)
  | clean_Dict d :
      (forall k x, d !! k = Some x -> json_clean x) -> json_clean (VDict d).

(** The value with every [str] replaced by the [unicode] of the same
    text.  On ASCII text the two are equal for Python: ['a' == u'a']. *)
Fixpoint unicode_of (v : pyval) : pyval :=
  match v with
  | VStr s => VUnicode s
  | VList l => VList (map unicode_of l)
  | VDict d => VDict (unicode_of <$> d)
  | _ => v
  end.

(** Every fact that the client returns has a value it decoded from JSON. *)
Definition facts_clean (pdb : PuppetDB) : Prop :=
  forall args f, f ∈ facts pdb args -> json_clean (Fact.value f).

(** ** The command line *)

Module Args.
(** The namespace that [parse_args] returns. *)
Record t := Build {
  environment : option string;
  debug : bool;
  list : bool;
  host : option string
}.
End Args.

(** ** Connecting *)

(** [db_connect]: the outcome of the call, then the dictionary it was
    given and [os.environ], both as the call leaves them.  [cfg.pop]
    removes the key from the caller's dictionary. *)
Definition db_connect (connect : gmap string pyval -> result PuppetDB)
    (cfg : pyval) (environ : gmap string string)
    : result PuppetDB * pyval * gmap string string :=
  match cfg with
  | VDict d =>
      let ca_cert := default VNone (d !! "ca_cert") in
      let d' := delete "ca_cert" d in
      if truthy ca_cert then
        match ca_cert with
        | VStr path | VUnicode path =>
            (connect d', VDict d', <["REQUESTS_CA_BUNDLE" := path]> environ)
        | _ => (Raise TypeError, VDict d', environ)
        end
      else (connect d', VDict d', environ)
  | VList _ => (Raise TypeError, cfg, environ)
  | _ => (Raise AttributeError, cfg, environ)
  end.

(** ** Inventory assembler *)

(** The string behind a [str] or [unicode] object. *)
Definition as_string (v : pyval) : result string :=
  match v with
  | VStr s | VUnicode s => Ok s
  | _ => Raise TypeError
  end.

(** Lines 182-183: the group name of a resource title. *)
Definition group_name (title_strip : pyval) (name : string) : result string :=
  pattern ← as_string title_strip;
  stripped ← Re.sub pattern "" name;
  Re.sub "::" "_" (lower stripped).

(** [output['_meta']['hostvars'][name] = host_vars] *)
Definition set_hostvars (output : gmap string pyval) (name : string)
    (host_vars : gmap string pyval) : result (gmap string pyval) :=
  meta ← getitem (VDict output) "_meta";
  hostvars ← getitem meta "hostvars";
  hostvars' ← setitem hostvars name (VDict host_vars);
  meta' ← setitem meta "hostvars" hostvars';
  Ok (<["_meta" := meta']> output).

(** The first loop of [main]: the names found so far and the document. *)
Fixpoint nodes_loop (pdb : PuppetDB) (cfg : pyval) (nodes : list string)
    (output : gmap string pyval) (found : list Node.t)
    : result (list string * gmap string pyval) :=
  match found with
  | [] => Ok (nodes, output)
  | node :: found' =>
      let nodes' := (nodes ++ [Node.name node])%list in
      query ← getitem cfg "query";
      facts_as_hostvars ← getitem query "facts_as_hostvars";
      output' ←
        (if truthy facts_as_hostvars then
           query_args_facts ← facts_query_args (Node.name node) query;
           host_vars ← hostvars_from_facts (facts pdb query_args_facts);
           set_hostvars output (Node.name node) host_vars
         else Ok output);
      nodes_loop pdb cfg nodes' output' found'
  end.

(** [output[group]['hosts'].append(node)] *)
Definition append_host (output : gmap string pyval) (group node : string)
    : result (gmap string pyval) :=
  entry ← getitem (VDict output) group;
  hosts ← getitem entry "hosts";
  match hosts with
  | VList hs =>
      entry' ← setitem entry "hosts" (VList (hs ++ [VUnicode node])%list);
      Ok (<[group := entry']> output)
  | _ => Raise AttributeError
  end.

(** [output.get(group) is None] *)
Definition get_is_None (output : gmap string pyval) (group : string) : bool :=
  match output !! group with
  | None | Some VNone => true
  | Some _ => false
  end.

(** [{'hosts': [node], 'vars': dict()}] *)
Definition new_group (node : string) : pyval :=
  VDict (<["hosts" := VList [VUnicode node]]> (<["vars" := VDict ∅]> ∅)).

(** One turn of the second loop of [main]. *)
Definition resource_step (cfg : pyval) (nodes : list string)
    (output : gmap string pyval) (resource : Resource.t)
    : result (gmap string pyval) :=
  if bool_decide (Resource.node resource ∉ nodes) then Ok output
  else
    query ← getitem cfg "query";
    title_strip ← getitem query "title_strip";
    group ← group_name title_strip (Resource.name resource);
    if get_is_None output group
    then Ok (<[group := new_group (Resource.node resource)]> output)
    else append_host output group (Resource.node resource).

(** The second loop of [main] over the resources still to read. *)
Fixpoint resources_loop (cfg : pyval) (nodes : list string)
    (output : gmap string pyval) (found : list Resource.t)
    : result (gmap string pyval) :=
  match found with
  | [] => Ok output
  | resource :: found' =>
      output' ← resource_step cfg nodes output resource;
      resources_loop cfg nodes output' found'
  end.

(** Lines 162-191: the document that [main] builds from the answers of
    the client. *)
Definition inventory (pdb : PuppetDB) (cfg : pyval) : result (gmap string pyval) :=
  let output : gmap string pyval :=
    <["_meta" := VDict (<["hostvars" := VDict ∅]> ∅)]> ∅ in
  query ← getitem cfg "query";
  query_args ← node_query_args query;
  '(nodes, output) ← nodes_loop pdb cfg [] output (nodes pdb query_args);
  query ← getitem cfg "query";
  query_args ← resource_query_args query;
  resources_loop cfg nodes output (resources pdb query_args).

(** ** The driver *)

(** Lines 157-159: the override of the query environment. *)
Definition override_environment (args : Args.t) (cfg : pyval) : result pyval :=
  match Args.environment args with
  | Some env =>
      if bool_decide (env = "") then Ok cfg
      else
        query ← getitem cfg "query";
        query' ← setitem query "environment" (VStr env);
        setitem cfg "query" query'
  | None => Ok cfg
  end.

(** What a run leaves behind: how it ended (the exit status or the
    exception), the configuration object as it stands, the process
    environment and the text printed. *)
Record run := Run {
  ended : result Z;
  cfg_after : option pyval;
  environ_after : gmap string string;
  stdout : list string
}.

Section Main.

Variable HOME : string.
Variable fs : filesystem.
Variable connect : gmap string pyval -> result PuppetDB.
Variable environ : gmap string string.

(** [main], from the namespace that [parse_args] returned.  What the
    logger writes to the standard error is left out. *)
Definition main (args : Args.t) : run :=
  if negb (Args.list args) then
    Run (Raise (RuntimeError "Only `--list` is currently supported")) None environ []
  else
    match parse_config HOME fs with
    | Raise e => Run (Raise e) None environ []
    | Ok cfg0 =>
        match override_environment args cfg0 with
        | Raise e => Run (Raise e) (Some cfg0) environ []
        | Ok cfg1 =>
            match getitem cfg1 "puppetdb" with
            | Raise e => Run (Raise e) (Some cfg1) environ []
            | Ok section =>
                let '(pdb, section', environ') := db_connect connect section environ in
                (* the dictionary changed by [db_connect] is the one
                   held under cfg['puppetdb'] *)
                let cfg2 :=
                  match cfg1 with
                  | VDict d => VDict (<["puppetdb" := section']> d)
                  | _ => cfg1
                  end in
                match (pdb ← pdb; output ← inventory pdb cfg2; to_json (VDict output)) with
                | Raise e => Run (Raise e) (Some cfg2) environ' []
                | Ok text => Run (Ok 0) (Some cfg2) environ' [text]
                end
            end
        end
    end.

End Main.

(** ** The group name as the specification words it *)

(** Every literal [::] replaced by [_], reading from the left. *)
Fixpoint replace_colons (s : string) : string :=
  match s with
  | EmptyString => ""
  | String c1 s1 =>
      match s1 with
      | EmptyString => s
      | String c2 s2 =>
          if bool_decide (c1 = ":"%char) && bool_decide (c2 = ":"%char)
          then String "_" (replace_colons s2)
          else String c1 (replace_colons s1)
      end
  end.

(** All matches of the strip pattern removed. *)
Definition strip (r : Re.regex) (name : string) : string :=
  Re.sub_loop r "" true 0 false name.

(** Strip, then substitute, then lowercase. *)
Definition spec_group_name (r : Re.regex) (name : string) : string :=
  lower (replace_colons (strip r name)).

(** The parsed form of the pattern [::]. *)
Definition colons : Re.regex := Re.Cat (Re.Lit ":") (Re.Cat (Re.Lit ":") Re.Eps).

(** ** Reading the document *)

#[global] Instance exn_eq_dec : EqDecision exn.
Proof. solve_decision. Defined.

#[global] Instance result_eq_dec {A} `{EqDecision A} : EqDecision (result A).
Proof. solve_decision. Defined.

(** The host list of a group of the document, empty where the key holds
    no group. *)
Definition hosts_of (doc : gmap string pyval) (group : string) : list pyval :=
  match doc !! group with
  | Some (VDict d) =>
      match d !! "hosts" with
      | Some (VList hs) => hs
      | _ => []
      end
  | _ => []
  end.

(** A resource counts for a group when its node was discovered and its
    title normalizes to the name of the group. *)
Definition counts_for (title_strip : pyval) (nodes : list string) (group : string)
    (resource : Resource.t) : Prop :=
  Resource.node resource ∈ nodes /\
  group_name title_strip (Resource.name resource) = Ok group.

#[global] Instance counts_for_dec ts nodes g r : Decision (counts_for ts nodes g r).
Proof. unfold counts_for. apply _. Defined.

(** The nodes of the resources that count for a group, one per resource,
    in the order of the resources. *)
Definition members (title_strip : pyval) (nodes : list string) (group : string)
    (found : list Resource.t) : list pyval :=
  (fun r => VUnicode (Resource.node r)) <$> filter (counts_for title_strip nodes group) found.

(** ** Fields of the configuration *)

(** The field of a nested mapping at a path of keys. *)
Fixpoint lookup_path (path : list string) (v : pyval) : option pyval :=
  match path with
  | [] => Some v
  | key :: path' =>
      match v with
      | VDict d =>
          match d !! key with
          | Some x => lookup_path path' x
          | None => None
          end
      | _ => None
      end
  end.

(** Two paths name fields apart from each other when neither lies on the
    way to the other. *)
Definition apart (p q : list string) : Prop :=
  ~ p `prefix_of` q /\ ~ q `prefix_of` p.

(** The two configurations agree on every field apart from the one at
    [[a; b]]. *)
Definition differs_at (a b : string) (cfg cfg' : pyval) : Prop :=
  forall path, apart path [a; b] -> lookup_path path cfg' = lookup_path path cfg.

(** ** Primitive values, as the specification lists them *)

(** A string, an integer, a float or a boolean.  The strings are the
    [str] and [unicode] objects and the integers are the [int] objects; a
    Python 2 [long] has a type of its own, which the list does not name. *)
Definition primitive (v : pyval) : Prop :=
  match v with
  | VStr _ | VUnicode _ | VInt _ | VFloat _ | VBool _ => True
  | _ => False
  end.

#[global] Instance primitive_dec v : Decision (primitive v).
Proof. destruct v; apply _. Defined.

(** The last fact of a list that bears a name. *)
Definition last_fact (name : string) (facts : list Fact.t) : option Fact.t :=
  last (filter (fun f => Fact.name f = name) facts).

(** The object is the name of the node, as the host lists hold it. *)
Definition names_host (node : string) (v : pyval) : Prop := v = VUnicode node.

#[global] Instance names_host_dec node v : Decision (names_host node v).
Proof.
  unfold names_host.
  destruct v as [| | | | | |s| |]; try (right; discriminate).
  destruct (decide (s = node)) as [->|Hne]; [by left|right; congruence].
Defined.

(** Every key other than the metadata key holds a group with a host list. *)
Definition groups_wf (output : gmap string pyval) : Prop :=
  forall g v, g <> "_meta" -> output !! g = Some v ->
    exists d hs, v = VDict d /\ d !! "hosts" = Some (VList hs).

(** The client with the resources of undiscovered nodes taken out of its
    answers. *)
Definition drop_undiscovered (discovered : list string) (pdb : PuppetDB) : PuppetDB := {|
  nodes := nodes pdb;
  facts := facts pdb;
  resources := fun args => filter (fun r => Resource.node r ∈ discovered) (resources pdb args)
|}.

(** The document before the second loop: the metadata key alone. *)
Definition meta_only (output : gmap string pyval) : Prop :=
  exists hostvars : gmap string pyval,
    output = {[ "_meta" := VDict {[ "hostvars" := VDict hostvars ]} ]}.

(** ** Further readings of the model *)

(** The document that holds the metadata key alone, with given hostvars. *)
Definition meta_doc (hostvars : gmap string pyval) : gmap string pyval :=
  {[ "_meta" := VDict {[ "hostvars" := VDict hostvars ]} ]}.

(** The facts that the first loop of [main] asks for a node, and the
    hostvars it makes of them. *)
Definition node_facts (pdb : PuppetDB) (query : pyval) (name : string)
    : result (list Fact.t) :=
  query_args_facts ← facts_query_args name query;
  Ok (facts pdb query_args_facts).

Definition node_hostvars (pdb : PuppetDB) (query : pyval) (name : string)
    : result (gmap string pyval) :=
  node_facts pdb query name ≫= hostvars_from_facts.

(** A group as [main] writes it: a host list and empty vars, nothing
    else. *)
Definition group_entry (hosts : list pyval) : pyval :=
  VDict (<["hosts" := VList hosts]> (<["vars" := VDict ∅]> ∅)).

(** The entry of a group with these hosts: none while it has no host. *)
Definition group_of_hosts (hosts : list pyval) : option pyval :=
  match hosts with
  | [] => None
  | _ => Some (group_entry hosts)
  end.

(** A text in which no character has a meaning of its own in a pattern. *)
Fixpoint plain (p : string) : bool :=
  match p with
  | EmptyString => true
  | String c p' => negb (Re.special c) && plain p'
  end.

(** The literals of a text, one per character. *)
Fixpoint literals (p : string) : list Re.regex :=
  match p with
  | EmptyString => []
  | String c p' => Re.Lit c :: literals p'
  end.

(** [s.startswith(p)] *)
Fixpoint starts_with (p s : string) : bool :=
  match p, s with
  | EmptyString, _ => true
  | String c p', String c' s' => bool_decide (c = c') && starts_with p' s'
  | String _ _, EmptyString => false
  end.

(** The text without its first [n] characters. *)
Fixpoint string_drop (n : nat) (s : string) : string :=
  match n, s with
  | S n', String _ s' => string_drop n' s'
  | _, _ => s
  end.

(** ** The example of the specification *)

Module Example.

Definition query : gmap string pyval :=
  <["environment" := VStr "prod"]>
  (<["resource_type" := VStr "Motd"]>
  (<["title_regexp" := VStr "^motd_"]>
  (<["title_strip" := VStr "^motd_"]>
  (<["facts_as_hostvars" := VList [VStr "os"]]>
  (<["last_report" := VNone]>
  (<["deactivated" := VBool false]>
  (<["expired" := VBool false]> ∅))))))).

Definition cfg : pyval :=
  VDict (<["puppetdb" := VDict (<["host" := VStr "puppetdb.example.org"]> ∅)]>
        (<["query" := VDict query]> ∅)).

Definition pdb : PuppetDB := {|
  nodes := fun _ => [Node.Build "host1" (VStr "2018-05-01T10:00:00Z")];
  facts := fun _ => [];
  resources := fun _ => [Resource.Build "host1" "motd_Banner::Main"]
|}.

(** The same client when the resource query also returns a resource of
    a node that the node query does not return. *)
Definition stray_pdb : PuppetDB := {|
  nodes := nodes pdb;
  facts := facts pdb;
  resources := fun _ =>
    [Resource.Build "host9" "motd_Stray"; Resource.Build "host1" "motd_Banner::Main"]
|}.

Definition node_args : gmap string arg :=
  match node_query_args (VDict query) with
  | Ok args => args
  | Raise _ => ∅
  end.

Definition resource_args : gmap string arg :=
  match resource_query_args (VDict query) with
  | Ok args => args
  | Raise _ => ∅
  end.

(** The same client when two resources of one node fall in one group. *)
Definition twice_pdb : PuppetDB := {|
  nodes := nodes pdb;
  facts := facts pdb;
  resources := fun _ =>
    [Resource.Build "host1" "motd_Banner::Main"; Resource.Build "host1" "motd_banner_main"]
|}.

(** The same client when a resource title normalizes to [_meta]. *)
Definition meta_pdb : PuppetDB := {|
  nodes := nodes pdb;
  facts := facts pdb;
  resources := fun _ => [Resource.Build "host1" "motd__Meta"]
|}.

(** The query section when [last_report] is set to zero. *)
Definition zero_query : pyval := VDict (<["last_report" := VInt 0]> query).

(** A configuration file with a CA bundle in its connection section. *)
Definition ca_cfg : pyval :=
  VDict (<["puppetdb" := VDict (<["ca_cert" := VStr "/etc/ssl/ca.pem"]>
                                (<["host" := VStr "puppetdb.example.org"]> ∅))]>
        (<["query" := VDict query]> ∅)).

(** Only the system-wide file exists. *)
Definition ca_fs : filesystem := {|
  isfile := fun f => bool_decide (f = GLOBAL_CONFIG);
  access_R_OK := fun f => bool_decide (f = GLOBAL_CONFIG);
  safe_load := fun f => if bool_decide (f = GLOBAL_CONFIG) then Ok ca_cfg else Raise YAMLError
|}.

Definition list_args : Args.t := Args.Build None false true None.

Definition connect (params : gmap string pyval) : result PuppetDB := Ok pdb.

(** The configuration of [ca_cfg] once [db_connect] has run. *)
Definition ca_cfg_after : pyval :=
  VDict (<["puppetdb" := VDict (<["host" := VStr "puppetdb.example.org"]> ∅)]>
        (<["query" := VDict query]> ∅)).

Definition os_fact (v : pyval) : Fact.t := Fact.Build "os" v.

Definition staging_args : Args.t := Args.Build (Some "staging") false true None.

(** The same client when the facts query returns facts. *)
Definition facts_pdb : PuppetDB := {|
  nodes := nodes pdb;
  facts := fun _ =>
    [Fact.Build "os" (VUnicode "Linux"); Fact.Build "load" (VFloat (FFinite "0.25"));
     Fact.Build "processors" (VInt 4); Fact.Build "virtual" (VBool false)];
  resources := resources pdb
|}.

(** The document that the assembler builds from it. *)
Definition facts_doc : gmap string pyval :=
  <["banner_main" := new_group "host1"]>
  (<["_meta" :=
      VDict (<["hostvars" :=
        VDict (<["host1" :=
          VDict (<["os" := VUnicode "Linux"]>
                (<["load" := VFloat (FFinite "0.25")]>
                (<["processors" := VInt 4]>
                (<["virtual" := VBool false]> ∅))))]> ∅)]> ∅)]> ∅).

(** The document once the node query is done. *)
Definition output : gmap string pyval :=
  <["_meta" := VDict (<["hostvars" := VDict (<["host1" := VDict ∅]> ∅)]> ∅)]> ∅.

(** The pattern [^motd_], parsed. *)
Definition title_strip : Re.regex :=
  Re.seq_of [Re.Bol; Re.Lit "m"; Re.Lit "o"; Re.Lit "t"; Re.Lit "d"; Re.Lit "_"].

Definition resource : Resource.t := Resource.Build "host1" "motd_Banner::Main".

Definition doc : gmap string pyval :=
  <["banner_main" := new_group "host1"]>
  (<["_meta" := VDict (<["hostvars" := VDict (<["host1" := VDict ∅]> ∅)]> ∅)]> ∅).

(** The same client when a fact holds a structured value. *)
Definition nested_pdb : PuppetDB := {|
  nodes := nodes pdb;
  facts := fun _ =>
    [Fact.Build "os" (VDict (<["family" := VUnicode "Debian"]> ∅))];
  resources := resources pdb
|}.

(** No configuration file at either path. *)
Definition no_fs : filesystem := {|
  isfile := fun _ => false;
  access_R_OK := fun _ => false;
  safe_load := fun _ => Raise YAMLError
|}.

(** A server that cannot be reached. *)
Definition refused (params : gmap string pyval) : result PuppetDB :=
  Raise (RuntimeError "connection refused").

(** The same client when the node query finds nothing. *)
Definition empty_pdb : PuppetDB := {|
  nodes := fun _ => [];
  facts := facts pdb;
  resources := resources pdb
|}.

End Example.


(** * Properties *)

Local Open Scope list_scope.

(** ** Strings *)

Lemma lower_char_colon c : lower_char c = ":"%char -> c = ":"%char.
Proof.
  destruct c as [[] [] [] [] [] [] [] []]; vm_compute; intros H;
    first [reflexivity | discriminate H].
Qed.

Lemma lower_char_idem c : lower_char (lower_char c) = lower_char c.
Proof. destruct c as [[] [] [] [] [] [] [] []]; reflexivity. Qed.

Lemma lower_idem s : lower (lower s) = lower s.
Proof. induction s as [|c s IH]; simpl; [reflexivity|]. by rewrite lower_char_idem, IH. Qed.

Lemma lower_char_is_colon c :
  bool_decide (lower_char c = ":"%char) = bool_decide (c = ":"%char).
Proof.
  apply bool_decide_ext. split; [apply lower_char_colon|]. by intros ->.
Qed.

(** Strong induction on a string, by its length. *)
Lemma string_length_ind (P : string -> Prop) :
  (forall s, (forall t, (String.length t < String.length s)%nat -> P t) -> P s) ->
  forall s, P s.
Proof.
  intros step.
  assert (forall n s, (String.length s < n)%nat -> P s) as H.
  { induction n as [|n IH]; intros s Hs; [lia|].
    apply step. intros t Ht. apply IH. lia. }
  intros s. apply (H (S (String.length s))). lia.
Qed.

Lemma replace_colons_cons2 c1 c2 s2 :
  replace_colons (String c1 (String c2 s2)) =
  if bool_decide (c1 = ":"%char) && bool_decide (c2 = ":"%char)
  then String "_" (replace_colons s2)
  else String c1 (replace_colons (String c2 s2)).
Proof. reflexivity. Qed.

Lemma replace_colons_head c t :
  c <> ":"%char -> replace_colons (String c t) = String c (replace_colons t).
Proof.
  intros Hc. destruct t as [|c2 t]; [reflexivity|].
  rewrite replace_colons_cons2. by rewrite (bool_decide_eq_false_2 _ Hc).
Qed.

Lemma replace_colons_second c1 c2 t :
  c2 <> ":"%char ->
  replace_colons (String c1 (String c2 t)) = String c1 (replace_colons (String c2 t)).
Proof.
  intros Hc. rewrite replace_colons_cons2.
  by rewrite (bool_decide_eq_false_2 _ Hc), andb_false_r.
Qed.

Lemma replace_colons_lower s : replace_colons (lower s) = lower (replace_colons s).
Proof.
  induction s as [s IH] using string_length_ind.
  destruct s as [|c1 [|c2 s2]]; [reflexivity..|].
  change (lower (String c1 (String c2 s2)))
    with (String (lower_char c1) (String (lower_char c2) (lower s2))).
  rewrite !replace_colons_cons2, !lower_char_is_colon.
  destruct (bool_decide (c1 = ":"%char) && bool_decide (c2 = ":"%char)).
  - cbn [lower]. rewrite IH by (simpl; lia). reflexivity.
  - cbn [lower]. f_equal. apply (IH (String c2 s2)). simpl; lia.
Qed.

(** What [replace_colons] returns has no [::] left in it. *)
Lemma replace_colons_idem s : replace_colons (replace_colons s) = replace_colons s.
Proof.
  induction s as [s IH] using string_length_ind.
  destruct s as [|c1 [|c2 s2]]; [reflexivity..|].
  rewrite replace_colons_cons2.
  destruct (bool_decide (c1 = ":"%char) && bool_decide (c2 = ":"%char)) eqn:E.
  - rewrite replace_colons_head by discriminate.
    rewrite IH by (simpl; lia). reflexivity.
  - destruct (decide (c2 = ":"%char)) as [->|Hc2].
    + assert (c1 <> ":"%char) as Hc1.
      { intros ->. rewrite !bool_decide_eq_true_2 in E by reflexivity. discriminate. }
      rewrite replace_colons_head by done.
      rewrite (IH (String ":" s2)) by (simpl; lia). reflexivity.
    + rewrite (replace_colons_head c2) by done.
      rewrite replace_colons_second by done.
      rewrite <- (replace_colons_head c2) by done.
      rewrite (IH (String c2 s2)) by (simpl; lia). reflexivity.
Qed.

(** ** The two substitutions of the group name *)

Lemma parse_colons : Re.parse "::" = Some colons.
Proof. reflexivity. Qed.

Lemma match_here_colons bos s :
  Re.match_here colons bos s =
  match s with
  | String c1 (String c2 t) =>
      if bool_decide (c1 = ":"%char) && bool_decide (c2 = ":"%char)
      then Some 2%nat else None
  | _ => None
  end.
Proof.
  unfold Re.match_here, colons.
  destruct s as [|c1 [|c2 t]]; cbn [Re.rmatch].
  - reflexivity.
  - by destruct (bool_decide (":"%char = c1)).
  - rewrite (bool_decide_ext (":"%char = c1) (c1 = ":"%char)) by (split; congruence).
    rewrite (bool_decide_ext (":"%char = c2) (c2 = ":"%char)) by (split; congruence).
    destruct (bool_decide (c1 = ":"%char)); [|reflexivity].
    destruct (bool_decide (c2 = ":"%char)); [|reflexivity].
    cbn [andb String.length]. f_equal. lia.
Qed.

(** [re.sub('::', '_', s)] is the literal replacement. *)
Lemma sub_loop_colons s bos after :
  Re.sub_loop colons "_" bos 0 after s = replace_colons s.
Proof.
  revert bos after. induction s as [s IH] using string_length_ind. intros bos after.
  destruct s as [|c1 s1].
  { cbn [Re.sub_loop]. by rewrite match_here_colons. }
  cbn [Re.sub_loop]. rewrite match_here_colons.
  destruct s1 as [|c2 s2].
  { by rewrite IH by (simpl; lia). }
  rewrite replace_colons_cons2.
  destruct (bool_decide (c1 = ":"%char) && bool_decide (c2 = ":"%char)).
  - cbn [Re.sub_loop]. rewrite IH by (simpl; lia). reflexivity.
  - rewrite IH by (simpl; lia). reflexivity.
Qed.

Lemma sub_colons s : Re.sub "::" "_" s = Ok (replace_colons s).
Proof. unfold Re.sub. rewrite parse_colons. by rewrite sub_loop_colons. Qed.

(** Where the pattern matches nowhere, [sub] leaves the text as it is. *)
Lemma sub_loop_no_match r repl s bos after :
  Re.search_from r bos s = false -> Re.sub_loop r repl bos 0 after s = s.
Proof.
  revert bos after. induction s as [|c s IH]; intros bos after.
  - cbn [Re.search_from Re.sub_loop]. by destruct (Re.match_here r bos "").
  - cbn [Re.search_from Re.sub_loop].
    destruct (Re.match_here r bos (String c s)); [discriminate|].
    intros H. by rewrite IH.
Qed.

Lemma group_name_parsed pattern r name :
  Re.parse pattern = Some r ->
  group_name (VStr pattern) name = Ok (replace_colons (lower (strip r name))).
Proof.
  intros Hp. unfold group_name, as_string.
  change (Re.sub pattern "" name ≫= (fun stripped => Re.sub "::" "_" (lower stripped)) =
          Ok (replace_colons (lower (strip r name)))).
  unfold Re.sub at 2. rewrite Hp. apply sub_colons.
Qed.

(** ** The exception monad *)

Lemma bind_Ok_inv {A B} (m : result A) (k : A -> result B) b :
  m ≫= k = Ok b -> exists a, m = Ok a /\ k a = Ok b.
Proof. destruct m as [a|e]; [|discriminate]. intros H. by exists a. Qed.

Lemma bind_Ok {A B} (a : A) (k : A -> result B) : Ok a ≫= k = k a.
Proof. reflexivity. Qed.

(** ** The second loop, one resource at a time *)

Section ResourceLoop.

Variables (cfg query title_strip : pyval) (nodes : list string).
Hypothesis Hquery : getitem cfg "query" = Ok query.
Hypothesis Hstrip : getitem query "title_strip" = Ok title_strip.

Lemma resource_step_skip output r :
  Resource.node r ∉ nodes -> resource_step cfg nodes output r = Ok output.
Proof. intros H. unfold resource_step. by rewrite bool_decide_eq_true_2. Qed.

Lemma resource_step_found output r :
  Resource.node r ∈ nodes ->
  resource_step cfg nodes output r =
  group_name title_strip (Resource.name r) ≫= fun group =>
    if get_is_None output group
    then Ok (<[group := new_group (Resource.node r)]> output)
    else append_host output group (Resource.node r).
Proof.
  intros H. unfold resource_step.
  rewrite bool_decide_eq_false_2 by (intros Hn; by apply Hn).
  by rewrite Hquery, bind_Ok, Hstrip, bind_Ok.
Qed.

Lemma hosts_of_insert_ne output g g' v :
  g <> g' -> hosts_of (<[g' := v]> output) g = hosts_of output g.
Proof. intros H. unfold hosts_of. by rewrite lookup_insert_ne. Qed.

Lemma hosts_of_insert_hosts output g d hs :
  hosts_of (<[g := VDict (<["hosts" := VList hs]> d)]> output) g = hs.
Proof. unfold hosts_of. rewrite lookup_insert_eq. by rewrite lookup_insert_eq. Qed.

Lemma hosts_of_get_is_None output g :
  get_is_None output g = true -> hosts_of output g = [].
Proof.
  unfold get_is_None, hosts_of. destruct (output !! g) as [[]|]; done.
Qed.

Lemma append_host_Ok output g node output' :
  append_host output g node = Ok output' ->
  exists d hs, output !! g = Some (VDict d) /\ d !! "hosts" = Some (VList hs) /\
    output' = <[g := VDict (<["hosts" := VList (hs ++ [VUnicode node])]> d)]> output.
Proof.
  unfold append_host. intros H.
  apply bind_Ok_inv in H as (entry & He & H).
  apply bind_Ok_inv in H as (hosts & Hh & H).
  unfold getitem in He, Hh.
  destruct (output !! g) as [v|] eqn:Hg; [|discriminate]. injection He as ->.
  destruct entry as [| | | | | | | |d]; try discriminate.
  destruct (d !! "hosts") as [v|] eqn:Hd; [|discriminate]. injection Hh as ->.
  destruct hosts as [| | | | | | |hs|]; try discriminate.
  cbn in H. injection H as <-. by exists d, hs.
Qed.

(** What one turn of the loop adds to the host list of a group. *)
Lemma resource_step_hosts output r output' g :
  resource_step cfg nodes output r = Ok output' ->
  hosts_of output' g =
  hosts_of output g ++ members title_strip nodes g [r].
Proof.
  intros H. unfold members. cbn [filter list_filter].
  destruct (decide (Resource.node r ∈ nodes)) as [Hin|Hout].
  - rewrite resource_step_found in H by done.
    apply bind_Ok_inv in H as (g' & Hg' & H).
    destruct (decide (g' = g)) as [->|Hne].
    + rewrite decide_True by (by split). cbn [fmap list_fmap].
      destruct (get_is_None output g) eqn:Hnone.
      * injection H as <-. rewrite (hosts_of_get_is_None output g) by done.
        unfold new_group. by rewrite hosts_of_insert_hosts.
      * apply append_host_Ok in H as (d & hs & Hd & Hhs & ->).
        rewrite hosts_of_insert_hosts. unfold hosts_of. by rewrite Hd, Hhs.
    + rewrite decide_False by (intros [_ E]; congruence).
      cbn [fmap list_fmap]. rewrite app_nil_r.
      destruct (get_is_None output g').
      * injection H as <-. by apply hosts_of_insert_ne.
      * apply append_host_Ok in H as (d & hs & _ & _ & ->).
        by apply hosts_of_insert_ne.
  - rewrite resource_step_skip in H by done. injection H as <-.
    rewrite decide_False by (intros [E _]; done). cbn [fmap list_fmap]. by rewrite app_nil_r.
Qed.

Lemma members_cons g r found :
  members title_strip nodes g (r :: found) =
  members title_strip nodes g [r] ++ members title_strip nodes g found.
Proof.
  unfold members. rewrite <- fmap_app. f_equal.
  change (r :: found) with ([r] ++ found). apply filter_app.
Qed.

(** The host list of a group after the loop: what it was, then the
    nodes of the resources that count for the group. *)
Lemma resources_loop_hosts found output doc g :
  resources_loop cfg nodes output found = Ok doc ->
  hosts_of doc g = hosts_of output g ++ members title_strip nodes g found.
Proof.
  revert output. induction found as [|r found IH]; intros output H.
  - injection H as <-. unfold members. cbn. by rewrite app_nil_r.
  - cbn [resources_loop] in H. apply bind_Ok_inv in H as (output' & Hstep & H).
    rewrite (IH _ H), (resource_step_hosts _ _ _ g Hstep), (members_cons g r found).
    by rewrite <- app_assoc.
Qed.

(** A resource that lands on the metadata key stops the run. *)
Lemma resource_step_meta output r d :
  output !! "_meta" = Some (VDict d) -> d !! "hosts" = None ->
  counts_for title_strip nodes "_meta" r ->
  resource_step cfg nodes output r = Raise (KeyError "hosts").
Proof.
  intros Hmeta Hd [Hin Hg]. rewrite resource_step_found by done.
  rewrite Hg, bind_Ok. unfold get_is_None. rewrite Hmeta.
  unfold append_host, getitem. by rewrite Hmeta, bind_Ok, Hd.
Qed.

Lemma resource_step_keeps_meta output r output' d :
  output !! "_meta" = Some (VDict d) -> d !! "hosts" = None ->
  resource_step cfg nodes output r = Ok output' ->
  output' !! "_meta" = Some (VDict d).
Proof.
  intros Hmeta Hd H.
  destruct (decide (counts_for title_strip nodes "_meta" r)) as [Hc|Hc].
  { rewrite (resource_step_meta _ _ _ Hmeta Hd Hc) in H. discriminate. }
  destruct (decide (Resource.node r ∈ nodes)) as [Hin|Hout].
  - rewrite resource_step_found in H by done.
    apply bind_Ok_inv in H as (g & Hg & H).
    assert (g <> "_meta") as Hne by (intros ->; apply Hc; by split).
    destruct (get_is_None output g).
    + injection H as <-. by rewrite lookup_insert_ne.
    + apply append_host_Ok in H as (? & ? & _ & _ & ->). by rewrite lookup_insert_ne.
  - rewrite resource_step_skip in H by done. by injection H as <-.
Qed.

End ResourceLoop.

(** Resources on nodes outside the discovery list change nothing, whatever
    the configuration holds. *)
Lemma resources_loop_filter cfg nodes found output :
  resources_loop cfg nodes output found =
  resources_loop cfg nodes output
    (filter (fun r => Resource.node r ∈ nodes) found).
Proof.
  revert output. induction found as [|r found IH]; intros output; [reflexivity|].
  rewrite filter_cons. destruct (decide (Resource.node r ∈ nodes)) as [Hin|Hout].
  - cbn [resources_loop]. destruct (resource_step cfg nodes output r); [|reflexivity].
    rewrite !bind_Ok. apply IH.
  - cbn [resources_loop]. rewrite resource_step_skip by done. rewrite bind_Ok. apply IH.
Qed.

(** ** The first loop *)

Lemma meta_only_lookup output :
  meta_only output ->
  exists d, output !! "_meta" = Some (VDict d) /\ d !! "hosts" = None /\
    forall g, hosts_of output g = [].
Proof.
  intros [hv ->]. exists {[ "hostvars" := VDict hv ]}.
  split; [by rewrite lookup_singleton_eq|]. split; [done|].
  intros g. unfold hosts_of. destruct (decide (g = "_meta")) as [->|Hne].
  - by rewrite lookup_singleton_eq.
  - by rewrite lookup_singleton_ne.
Qed.

Lemma set_hostvars_meta_only output name host_vars output' :
  meta_only output -> set_hostvars output name host_vars = Ok output' ->
  meta_only output'.
Proof.
  intros [hv ->]. unfold set_hostvars, getitem.
  rewrite lookup_singleton_eq, bind_Ok, lookup_singleton_eq, bind_Ok.
  cbn [setitem]. rewrite !bind_Ok. intros [= <-].
  exists (<[name := VDict host_vars]> hv).
  by rewrite !insert_singleton_eq.
Qed.

Lemma nodes_loop_Ok pdb cfg found nodes0 output0 nodes output :
  nodes_loop pdb cfg nodes0 output0 found = Ok (nodes, output) ->
  meta_only output0 ->
  nodes = nodes0 ++ (Node.name <$> found) /\ meta_only output.
Proof.
  revert nodes0 output0. induction found as [|node found IH]; intros nodes0 output0 H Hm.
  - injection H as <- <-. by rewrite app_nil_r.
  - cbn [nodes_loop] in H.
    apply bind_Ok_inv in H as (query & Hq & H).
    apply bind_Ok_inv in H as (fah & Hf & H).
    apply bind_Ok_inv in H as (output1 & Ho & H).
    apply IH in H as [-> Hm'].
    + split; [|done]. by rewrite <- app_assoc.
    + destruct (truthy fah); [|by injection Ho as <-].
      apply bind_Ok_inv in Ho as (qa & _ & Ho).
      apply bind_Ok_inv in Ho as (hv & _ & Ho).
      by eapply set_hostvars_meta_only.
Qed.

(** The stages of a run of the assembler that ends well. *)
Lemma inventory_Ok pdb cfg doc :
  inventory pdb cfg = Ok doc ->
  exists query node_args output resource_args,
    getitem cfg "query" = Ok query /\
    node_query_args query = Ok node_args /\
    meta_only output /\
    resource_query_args query = Ok resource_args /\
    resources_loop cfg (Node.name <$> nodes pdb node_args) output
      (resources pdb resource_args) = Ok doc.
Proof.
  unfold inventory. intros H.
  apply bind_Ok_inv in H as (query & Hq & H).
  apply bind_Ok_inv in H as (node_args & Hn & H).
  apply bind_Ok_inv in H as ([nodes output] & Hl & H).
  apply bind_Ok_inv in H as (query' & Hq' & H).
  rewrite Hq in Hq'. injection Hq' as <-.
  apply bind_Ok_inv in H as (resource_args & Hr & H).
  apply nodes_loop_Ok in Hl as [-> Hm].
  { by exists query, node_args, output, resource_args. }
  exists ∅. by rewrite insert_empty, insert_empty.
Qed.

(** ** Group names *)





(** ** Membership *)

Lemma resource_step_untouched cfg query title_strip nodes output r output' g :
  getitem cfg "query" = Ok query ->
  getitem query "title_strip" = Ok title_strip ->
  resource_step cfg nodes output r = Ok output' ->
  ~ counts_for title_strip nodes g r ->
  output' !! g = output !! g.
Proof.
  intros Hq Hts H Hc.
  destruct (decide (Resource.node r ∈ nodes)) as [Hin|Hout].
  - rewrite (resource_step_found cfg query title_strip nodes Hq Hts) in H by done.
    apply bind_Ok_inv in H as (g' & Hg' & H).
    assert (g' <> g) as Hne by (intros ->; apply Hc; by split).
    destruct (get_is_None output g').
    + injection H as <-. by rewrite lookup_insert_ne.
    + apply append_host_Ok in H as (? & ? & _ & _ & ->). by rewrite lookup_insert_ne.
  - rewrite resource_step_skip in H by done. by injection H as <-.
Qed.

Lemma resources_loop_untouched cfg query title_strip nodes found output doc g :
  getitem cfg "query" = Ok query ->
  getitem query "title_strip" = Ok title_strip ->
  resources_loop cfg nodes output found = Ok doc ->
  Forall (fun r => ~ counts_for title_strip nodes g r) found ->
  doc !! g = output !! g.
Proof.
  intros Hq Hts. revert output. induction found as [|r found IH]; intros output H Hall.
  - by injection H as <-.
  - cbn [resources_loop] in H. apply bind_Ok_inv in H as (output' & Hstep & H).
    apply Forall_cons in Hall as [Hr Hall].
    rewrite (IH _ H Hall). by eapply resource_step_untouched.
Qed.

Lemma hosts_of_lookup doc g d hs :
  doc !! g = Some (VDict d) -> d !! "hosts" = Some (VList hs) -> hosts_of doc g = hs.
Proof. intros Hg Hd. unfold hosts_of. by rewrite Hg, Hd. Qed.

Lemma inventory_drop_undiscovered pdb cfg query node_args :
  getitem cfg "query" = Ok query ->
  node_query_args query = Ok node_args ->
  inventory pdb cfg =
  inventory (drop_undiscovered (Node.name <$> nodes pdb node_args) pdb) cfg.
Proof.
  intros Hq Hn. unfold inventory. rewrite Hq, !bind_Ok, Hn, !bind_Ok.
  change (nodes (drop_undiscovered _ pdb)) with (nodes pdb).
  set (out0 := <["_meta" := _]> ∅).
  assert (forall found nodes0 output0,
    nodes_loop (drop_undiscovered (Node.name <$> nodes pdb node_args) pdb) cfg
      nodes0 output0 found = nodes_loop pdb cfg nodes0 output0 found) as Hsame.
  { induction found as [|n found IH]; intros nodes0 output0; [reflexivity|].
    cbn [nodes_loop]. destruct (getitem cfg "query"); [|reflexivity].
    rewrite !bind_Ok. destruct (getitem _ "facts_as_hostvars"); [|reflexivity].
    rewrite !bind_Ok.
    change (facts (drop_undiscovered _ pdb)) with (facts pdb).
    match goal with |- ?m ≫= _ = _ => destruct m end; [|reflexivity].
    rewrite !bind_Ok. apply IH. }
  rewrite Hsame.
  destruct (nodes_loop pdb cfg [] out0 (nodes pdb node_args)) as [[nodes output]|e] eqn:Hl;
    [|reflexivity].
  rewrite !bind_Ok. cbn beta iota.
  destruct (resource_query_args query) as [resource_args|e]; [|reflexivity].
  rewrite !bind_Ok.
  apply nodes_loop_Ok in Hl as [-> _].
  - cbn [app]. apply resources_loop_filter.
  - exists ∅. unfold out0. by rewrite !insert_empty.
Qed.

(** C2. The resources of nodes that the node query did not return
    contribute nothing: the document is the one obtained with those
    resources taken out of the answer, every host of every group belongs
    to a resource of a discovered node, and every group other than the
    metadata key comes from such a resource. *)
Theorem undiscovered_resources_dropped (pdb : PuppetDB) (cfg query title_strip : pyval)
    (node_args resource_args : gmap string arg) (doc : gmap string pyval) :
  getitem cfg "query" = Ok query ->
  getitem query "title_strip" = Ok title_strip ->
  node_query_args query = Ok node_args ->
  resource_query_args query = Ok resource_args ->
  inventory pdb cfg = Ok doc ->
  let discovered := Node.name <$> nodes pdb node_args in
  inventory (drop_undiscovered discovered pdb) cfg = Ok doc /\
  (forall group d hs host,
     doc !! group = Some (VDict d) -> d !! "hosts" = Some (VList hs) -> host ∈ hs ->
     exists r, r ∈ resources pdb resource_args /\
       Resource.node r ∈ discovered /\ host = VUnicode (Resource.node r)) /\
  (forall group,
     group <> "_meta" -> is_Some (doc !! group) ->
     exists r, r ∈ resources pdb resource_args /\
       Resource.node r ∈ discovered /\
       group_name title_strip (Resource.name r) = Ok group).
Proof.
  intros Hq Hts Hn Hr Hinv discovered.
  split.
  { unfold discovered. by rewrite <- (inventory_drop_undiscovered pdb cfg query node_args Hq Hn). }
  apply inventory_Ok in Hinv
    as (query' & node_args' & output & resource_args' & Hq' & Hn' & Hm & Hr' & Hloop).
  rewrite Hq in Hq'. injection Hq' as <-.
  rewrite Hn in Hn'. injection Hn' as <-.
  rewrite Hr in Hr'. injection Hr' as <-.
  fold discovered in Hloop.
  apply meta_only_lookup in Hm as Hm'. destruct Hm' as (dm & Hmeta & Hdm & Hempty).
  split.
  - intros group d hs host Hg Hd Hhost.
    rewrite <- (hosts_of_lookup _ _ _ _ Hg Hd) in Hhost.
    rewrite (resources_loop_hosts cfg query title_strip discovered Hq Hts _ _ _ group Hloop)
      in Hhost.
    rewrite Hempty in Hhost. cbn [app] in Hhost. unfold members in Hhost.
    apply list_elem_of_fmap in Hhost as (r & -> & Hrf).
    apply list_elem_of_filter in Hrf as [[Hin _] Hrf]. by exists r.
  - intros group Hne Hsome.
    destruct (decide (Exists (counts_for title_strip discovered group)
                        (resources pdb resource_args))) as [Hex|Hnex].
    + apply Exists_exists in Hex as (r & Hrf & [Hin Hg]). by exists r.
    + apply not_Exists_Forall in Hnex; [|intros r; apply _].
      rewrite (resources_loop_untouched cfg query title_strip discovered _ _ _ group
                 Hq Hts Hloop Hnex) in Hsome.
      destruct Hm as [hv ->]. rewrite lookup_singleton_ne in Hsome by done.
      by destruct Hsome.
Qed.

Lemma undiscovered_resources_dropped_witness :
  inventory (drop_undiscovered ["host1"] Example.stray_pdb) Example.cfg = Ok Example.doc.
Proof.
  apply (undiscovered_resources_dropped Example.stray_pdb Example.cfg
           (VDict Example.query) (VStr "^motd_") Example.node_args Example.resource_args
           Example.doc).
  - reflexivity.
  - reflexivity.
  - vm_compute. reflexivity.
  - vm_compute. reflexivity.
  - vm_compute. reflexivity.
Defined.

(** ** Host lists *)

Lemma count_members (P : Resource.t -> Prop) `{forall r, Decision (P r)}
    (node : string) (found : list Resource.t) :
  length (filter (names_host node) ((fun r => VUnicode (Resource.node r)) <$> filter P found)) =
  length (filter (fun r => P r /\ Resource.node r = node) found).
Proof.
  induction found as [|r found IH]; [reflexivity|].
  rewrite !filter_cons. destruct (decide (P r)) as [HP|HP].
  - cbn [fmap list_fmap]. rewrite filter_cons.
    destruct (decide (Resource.node r = node)) as [Hn|Hn].
    + rewrite decide_True by (unfold names_host; congruence).
      rewrite decide_True by done. cbn [length]. by rewrite <- IH.
    + rewrite decide_False by (unfold names_host; congruence).
      rewrite decide_False by (intros [_ E]; done). apply IH.
  - rewrite decide_False by (intros [E _]; done). apply IH.
Qed.

(** C9. A group lists the node of every resource that counts for it, one
    entry per resource and in the order of the resources: nothing is
    merged when several resources of one node fall in the same group. *)
Theorem hosts_once_per_resource (pdb : PuppetDB) (cfg query title_strip : pyval)
    (node_args resource_args : gmap string arg) (doc : gmap string pyval)
    (group : string) :
  getitem cfg "query" = Ok query ->
  getitem query "title_strip" = Ok title_strip ->
  node_query_args query = Ok node_args ->
  resource_query_args query = Ok resource_args ->
  inventory pdb cfg = Ok doc ->
  let discovered := Node.name <$> nodes pdb node_args in
  let found := resources pdb resource_args in
  hosts_of doc group = members title_strip discovered group found /\
  (members title_strip discovered group found <> [] ->
   exists d, doc !! group = Some (VDict d) /\
     d !! "hosts" = Some (VList (members title_strip discovered group found))) /\
  (forall node,
     length (filter (names_host node) (hosts_of doc group)) =
     length (filter (fun r => counts_for title_strip discovered group r /\
                              Resource.node r = node) found)).
Proof.
  intros Hq Hts Hn Hr Hinv discovered found.
  apply inventory_Ok in Hinv
    as (query' & node_args' & output & resource_args' & Hq' & Hn' & Hm & Hr' & Hloop).
  rewrite Hq in Hq'. injection Hq' as <-.
  rewrite Hn in Hn'. injection Hn' as <-.
  rewrite Hr in Hr'. injection Hr' as <-.
  fold discovered found in Hloop.
  apply meta_only_lookup in Hm as (dm & Hmeta & Hdm & Hempty).
  assert (hosts_of doc group = members title_strip discovered group found) as Hhosts.
  { rewrite (resources_loop_hosts cfg query title_strip discovered Hq Hts _ _ _ group Hloop).
    by rewrite Hempty. }
  split; [exact Hhosts|]. split.
  - intros Hne. rewrite <- Hhosts in Hne |- *. unfold hosts_of in Hne |- *.
    destruct (doc !! group) as [[| | | | | | | |d]|]; try done.
    exists d. split; [done|].
    destruct (d !! "hosts") as [[| | | | | | |hs|]|]; done.
  - intros node. rewrite Hhosts. unfold members. apply count_members.
Qed.

Lemma hosts_once_per_resource_witness :
  hosts_of (<["banner_main" :=
              VDict (<["hosts" := VList [VUnicode "host1"; VUnicode "host1"]]>
                    (<["vars" := VDict ∅]> ∅))]> Example.output) "banner_main" =
  [VUnicode "host1"; VUnicode "host1"].
Proof.
  apply (hosts_once_per_resource Example.twice_pdb Example.cfg
           (VDict Example.query) (VStr "^motd_") Example.node_args Example.resource_args).
  - reflexivity.
  - reflexivity.
  - vm_compute. reflexivity.
  - vm_compute. reflexivity.
  - vm_compute. reflexivity.
Defined.

(** ** The metadata key *)

Lemma group_name_any title_strip name g name' :
  group_name title_strip name = Ok g ->
  exists g', group_name title_strip name' = Ok g'.
Proof.
  unfold group_name. intros H.
  apply bind_Ok_inv in H as (pattern & -> & H). rewrite bind_Ok.
  apply bind_Ok_inv in H as (stripped & Hs & _).
  unfold Re.sub in Hs |- * at 2.
  destruct (Re.parse pattern); [|discriminate].
  rewrite bind_Ok, sub_colons. by eexists.
Qed.

Lemma resource_step_groups_wf cfg query title_strip nodes output r output' :
  getitem cfg "query" = Ok query ->
  getitem query "title_strip" = Ok title_strip ->
  groups_wf output ->
  resource_step cfg nodes output r = Ok output' ->
  groups_wf output'.
Proof.
  intros Hq Hts Hwf H.
  destruct (decide (Resource.node r ∈ nodes)) as [Hin|Hout].
  - rewrite (resource_step_found cfg query title_strip nodes Hq Hts) in H by done.
    apply bind_Ok_inv in H as (g' & Hg' & H).
    destruct (get_is_None output g').
    + injection H as <-. intros g v Hne Hv.
      destruct (decide (g' = g)) as [->|Hgg].
      * rewrite lookup_insert_eq in Hv. injection Hv as <-.
        eexists _, _. split; [reflexivity|]. by rewrite lookup_insert_eq.
      * rewrite lookup_insert_ne in Hv by done. by eapply Hwf.
    + apply append_host_Ok in H as (d & hs & Hd & Hhs & ->). intros g v Hne Hv.
      destruct (decide (g' = g)) as [->|Hgg].
      * rewrite lookup_insert_eq in Hv. injection Hv as <-.
        eexists _, _. split; [reflexivity|]. by rewrite lookup_insert_eq.
      * rewrite lookup_insert_ne in Hv by done. by eapply Hwf.
  - rewrite resource_step_skip in H by done. by injection H as <-.
Qed.

(** Among well-formed groups, a turn of the loop fails on the metadata
    key only. *)
Lemma resource_step_total cfg query title_strip nodes output r d :
  getitem cfg "query" = Ok query ->
  getitem query "title_strip" = Ok title_strip ->
  (forall name, exists g, group_name title_strip name = Ok g) ->
  groups_wf output ->
  output !! "_meta" = Some (VDict d) ->
  ~ counts_for title_strip nodes "_meta" r ->
  exists output', resource_step cfg nodes output r = Ok output'.
Proof.
  intros Hq Hts Hall Hwf Hmeta Hc.
  destruct (decide (Resource.node r ∈ nodes)) as [Hin|Hout].
  - rewrite (resource_step_found cfg query title_strip nodes Hq Hts) by done.
    destruct (Hall (Resource.name r)) as [g Hg]. rewrite Hg, bind_Ok.
    assert (g <> "_meta") as Hne by (intros ->; apply Hc; by split).
    unfold get_is_None. destruct (output !! g) as [v|] eqn:Hv; [|by eexists].
    destruct (Hwf g v Hne Hv) as (dg & hs & -> & Hhs).
    unfold append_host, getitem. rewrite Hv, bind_Ok, Hhs, bind_Ok.
    cbn [setitem]. rewrite bind_Ok. by eexists.
  - rewrite resource_step_skip by done. by eexists.
Qed.

Lemma resources_loop_meta_raises cfg query title_strip nodes found output d :
  getitem cfg "query" = Ok query ->
  getitem query "title_strip" = Ok title_strip ->
  groups_wf output ->
  output !! "_meta" = Some (VDict d) -> d !! "hosts" = None ->
  Exists (counts_for title_strip nodes "_meta") found ->
  resources_loop cfg nodes output found = Raise (KeyError "hosts").
Proof.
  intros Hq Hts. revert output.
  induction found as [|r found IH]; intros output Hwf Hmeta Hd Hex.
  - by apply Exists_nil in Hex.
  - cbn [resources_loop].
    destruct (decide (counts_for title_strip nodes "_meta" r)) as [Hc|Hc].
    + by rewrite (resource_step_meta cfg query title_strip nodes Hq Hts _ _ _ Hmeta Hd Hc).
    + apply Exists_cons in Hex as [Hex|Hex]; [done|].
      assert (forall name, exists g, group_name title_strip name = Ok g) as Hall.
      { apply Exists_exists in Hex as (r' & _ & [_ Hg]).
        intros name. by eapply group_name_any. }
      destruct (resource_step_total cfg query title_strip nodes output r d
                  Hq Hts Hall Hwf Hmeta Hc) as [output' Hstep].
      rewrite Hstep, bind_Ok. apply IH; [|by eapply resource_step_keeps_meta|done|done].
      by eapply resource_step_groups_wf.
Qed.

Lemma meta_only_groups_wf output : meta_only output -> groups_wf output.
Proof.
  intros [hv ->] g v Hne Hv. by rewrite lookup_singleton_ne in Hv.
Qed.

(** C10. A resource of a discovered node whose title normalizes to
    [_meta] finds the metadata object under that key, takes the branch of
    an existing group, and fails looking up [hosts] in it: the assembler
    ends with an exception, which is that key error whenever the node loop
    went through, and no document is produced. *)
Theorem meta_group_fails (pdb : PuppetDB) (cfg query title_strip : pyval)
    (node_args resource_args : gmap string arg) (r : Resource.t) :
  getitem cfg "query" = Ok query ->
  getitem query "title_strip" = Ok title_strip ->
  node_query_args query = Ok node_args ->
  resource_query_args query = Ok resource_args ->
  r ∈ resources pdb resource_args ->
  Resource.node r ∈ (Node.name <$> nodes pdb node_args) ->
  group_name title_strip (Resource.name r) = Ok "_meta" ->
  (exists e, inventory pdb cfg = Raise e) /\
  (forall names output,
     nodes_loop pdb cfg [] (<["_meta" := VDict (<["hostvars" := VDict ∅]> ∅)]> ∅)
       (nodes pdb node_args) = Ok (names, output) ->
     inventory pdb cfg = Raise (KeyError "hosts")) /\
  (forall names output d,
     Resource.node r ∈ names ->
     output !! "_meta" = Some (VDict d) -> d !! "hosts" = None ->
     get_is_None output "_meta" = false /\
     resource_step cfg names output r = Raise (KeyError "hosts")).
Proof.
  intros Hq Hts Hn Hr Hin Hnode Hg.
  assert (forall names output,
     nodes_loop pdb cfg [] (<["_meta" := VDict (<["hostvars" := VDict ∅]> ∅)]> ∅)
       (nodes pdb node_args) = Ok (names, output) ->
     inventory pdb cfg = Raise (KeyError "hosts")) as Hrun.
  { intros names output Hl. unfold inventory.
    rewrite Hq, !bind_Ok, Hn, !bind_Ok, Hl, !bind_Ok. cbn beta iota.
    rewrite Hr, !bind_Ok.
    apply nodes_loop_Ok in Hl as [-> Hm];
      [|exists ∅; by rewrite !insert_empty].
    cbn [app]. apply meta_only_lookup in Hm as Hm'.
    destruct Hm' as (d & Hmeta & Hd & _).
    apply (resources_loop_meta_raises cfg query title_strip _ _ _ d Hq Hts);
      [by apply meta_only_groups_wf|done|done|].
    apply Exists_exists. exists r. by repeat split. }
  split; [|split; [exact Hrun|]].
  - destruct (nodes_loop pdb cfg [] (<["_meta" := VDict (<["hostvars" := VDict ∅]> ∅)]> ∅)
                (nodes pdb node_args)) as [[names output]|e] eqn:Hl.
    + exists (KeyError "hosts"). by eapply Hrun.
    + exists e. unfold inventory. by rewrite Hq, !bind_Ok, Hn, !bind_Ok, Hl.
  - intros names output d Hin' Hmeta Hd. split.
    + unfold get_is_None. by rewrite Hmeta.
    + apply (resource_step_meta cfg query title_strip names Hq Hts _ _ d Hmeta Hd).
      by split.
Qed.

Lemma meta_group_fails_witness :
  inventory Example.meta_pdb Example.cfg = Raise (KeyError "hosts").
Proof.
  apply (meta_group_fails Example.meta_pdb Example.cfg (VDict Example.query)
           (VStr "^motd_") Example.node_args Example.resource_args
           (Resource.Build "host1" "motd__Meta")) with (names := ["host1"])
           (output := Example.output).
  - reflexivity.
  - reflexivity.
  - vm_compute. reflexivity.
  - vm_compute. reflexivity.
  - constructor.
  - constructor.
  - vm_compute. reflexivity.
  - vm_compute. reflexivity.
Defined.

(** ** Facts *)

Lemma fact_type_check v :
  bool_decide (type_of v ∉ FACT_VALUE_TYPES) = bool_decide (~ primitive v).
Proof. destruct v; by vm_compute. Qed.

Lemma hostvars_loop_Ok facts host_vars :
  Forall (fun f => primitive (Fact.value f)) facts ->
  exists hv, hostvars_loop host_vars facts = Ok hv /\
    forall name,
      hv !! name =
      match last_fact name facts with
      | Some f => Some (Fact.value f)
      | None => host_vars !! name
      end.
Proof.
  revert host_vars. induction facts as [|f facts IH]; intros host_vars Hall.
  - exists host_vars. by split.
  - apply Forall_cons in Hall as [Hf Hall]. cbn [hostvars_loop].
    rewrite fact_type_check, bool_decide_eq_false_2 by (intros H; by apply H).
    destruct (IH (<[Fact.name f := Fact.value f]> host_vars) Hall) as (hv & -> & Hhv).
    exists hv. split; [done|]. intros name. rewrite Hhv. unfold last_fact.
    rewrite filter_cons. destruct (decide (Fact.name f = name)) as [<-|Hne].
    + rewrite last_cons. destruct (last _); [done|]. by rewrite lookup_insert_eq.
    + destruct (last _); [done|]. by rewrite lookup_insert_ne.
Qed.

Lemma hostvars_loop_Raise facts host_vars e :
  hostvars_loop host_vars facts = Raise e ->
  exists f, f ∈ facts /\ ~ primitive (Fact.value f) /\ e = fact_error (Fact.name f).
Proof.
  revert host_vars. induction facts as [|f facts IH]; intros host_vars H; [discriminate|].
  cbn [hostvars_loop] in H. rewrite fact_type_check in H.
  destruct (decide (~ primitive (Fact.value f))) as [Hf|Hf].
  - rewrite bool_decide_eq_true_2 in H by done. injection H as <-.
    exists f. split; [constructor|done].
  - rewrite bool_decide_eq_false_2 in H by done.
    apply IH in H as (f' & Hin & Hf' & ->). exists f'. split; [by constructor|done].
Qed.



(** ** Query arguments *)

Lemma node_query_args_unreported cfg args :
  node_query_args cfg = Ok args ->
  exists last_report,
    getitem cfg "last_report" = Ok last_report /\
    args !! "unreported" =
      Some (ArgValue (if truthy last_report then last_report
                      else VInt DEFAULT_LAST_REPORT)).
Proof.
  unfold node_query_args. intros H.
  apply bind_Ok_inv in H as (last_report & Hl & H).
  apply bind_Ok_inv in H as (environment & _ & H).
  apply bind_Ok_inv in H as (deactivated & _ & H).
  apply bind_Ok_inv in H as (expired & _ & H).
  injection H as <-. exists last_report. split; [done|].
  rewrite lookup_insert_ne by done. by rewrite lookup_insert_eq.
Qed.

(** C4, as the code has it.  The threshold is the configured
    [last_report] whenever that value is true in the sense of Python (so
    a non-zero number), and the default 2 whenever it is false in that
    sense: null, but zero as well.  The arguments are built whenever the
    four keys read are present. *)
Theorem unreported_threshold (cfg : pyval) :
  (forall args last_report,
     node_query_args cfg = Ok args ->
     getitem cfg "last_report" = Ok last_report ->
     args !! "unreported" =
       Some (ArgValue (if truthy last_report then last_report else VInt 2)) /\
     (last_report = VNone -> args !! "unreported" = Some (ArgValue (VInt 2))) /\
     (forall n, last_report = VInt n -> n <> 0 ->
        args !! "unreported" = Some (ArgValue (VInt n))) /\
     (last_report = VInt 0 -> args !! "unreported" = Some (ArgValue (VInt 2)))) /\
  (forall last_report environment deactivated expired,
     getitem cfg "last_report" = Ok last_report ->
     getitem cfg "environment" = Ok environment ->
     getitem cfg "deactivated" = Ok deactivated ->
     getitem cfg "expired" = Ok expired ->
     exists args, node_query_args cfg = Ok args).
Proof.
  split.
  - intros args last_report Hargs Hl.
    apply node_query_args_unreported in Hargs as (v & Hv & Hu).
    rewrite Hl in Hv. injection Hv as <-.
    split; [exact Hu|]. split; [|split].
    + intros ->. exact Hu.
    + intros n -> Hn. rewrite Hu. cbn [truthy].
      by rewrite (proj2 (Z.eqb_neq n 0) Hn).
    + intros ->. exact Hu.
  - intros last_report environment deactivated expired Hl He Hd Hx.
    unfold node_query_args. rewrite Hl, bind_Ok, He, bind_Ok, Hd, bind_Ok, Hx, bind_Ok.
    by eexists.
Qed.

Lemma unreported_threshold_witness :
  exists args, node_query_args Example.zero_query = Ok args /\
    args !! "unreported" = Some (ArgValue (VInt 2)).
Proof.
  destruct (proj2 (unreported_threshold Example.zero_query)
              (VInt 0) (VStr "prod") (VBool false) (VBool false)) as [args Hargs];
    [reflexivity..|].
  exists args. split; [exact Hargs|].
  apply (proj1 (unreported_threshold Example.zero_query) args (VInt 0) Hargs).
  - reflexivity.
  - reflexivity.
Defined.

(** C4 as stated fails: [last_report] set to zero is not null, yet the
    threshold is the default 2 and not zero. *)
Lemma unreported_threshold_counterexample :
  ~ (forall cfg args last_report,
       node_query_args cfg = Ok args ->
       getitem cfg "last_report" = Ok last_report ->
       last_report <> VNone ->
       args !! "unreported" = Some (ArgValue last_report)).
Proof.
  intros H.
  destruct (node_query_args Example.zero_query) as [args|e] eqn:E; [|by vm_compute in E].
  specialize (H Example.zero_query args (VInt 0) E eq_refl ltac:(discriminate)).
  apply node_query_args_unreported in E as (v & Hv & Hu).
  injection Hv as <-. rewrite Hu in H. discriminate H.
Qed.

(** ** The configuration file *)

(** C5. [parse_config] tries the file of the user, then the file of the
    system, and returns what the YAML loader gives for the first of them
    that is a readable file, whatever the other holds; with no readable
    file at either path it returns the empty mapping. *)
Theorem parse_config_first_readable (HOME : string) (fs : filesystem) :
  let readable f := isfile fs f && access_R_OK fs f in
  CONFIG_FILES HOME = [(HOME ++ "/.puppetdb.yml")%string; "/etc/ansible/puppetdb.yml"] /\
  (readable (HOME ++ "/.puppetdb.yml")%string = true ->
   parse_config HOME fs = safe_load fs (HOME ++ "/.puppetdb.yml")%string) /\
  (readable (HOME ++ "/.puppetdb.yml")%string = false ->
   readable "/etc/ansible/puppetdb.yml" = true ->
   parse_config HOME fs = safe_load fs "/etc/ansible/puppetdb.yml") /\
  (readable (HOME ++ "/.puppetdb.yml")%string = false ->
   readable "/etc/ansible/puppetdb.yml" = false ->
   parse_config HOME fs = Ok (VDict ∅)).
Proof.
  intros readable. unfold parse_config, CONFIG_FILES, HOME_CONFIG, GLOBAL_CONFIG, from_yaml.
  split; [reflexivity|]. cbn [parse_config_loop]. unfold from_yaml. subst readable. cbn beta.
  split; [|split].
  - by intros ->.
  - by intros -> ->.
  - by intros -> ->.
Qed.

Lemma parse_config_first_readable_witness :
  parse_config "/root" Example.ca_fs = Ok Example.ca_cfg.
Proof.
  apply (proj1 (proj2 (proj2 (parse_config_first_readable "/root" Example.ca_fs)))).
  - reflexivity.
  - reflexivity.
Defined.

(** ** The configuration during a run *)

Lemma differs_at_refl a b cfg : differs_at a b cfg cfg.
Proof. by intros path _. Qed.

(** Replacing one key of a section leaves every field apart from it. *)
Lemma differs_at_update a b d q q' :
  d !! a = Some (VDict q) ->
  (forall k, k <> b -> q' !! k = q !! k) ->
  differs_at a b (VDict d) (VDict (<[a := VDict q']> d)).
Proof.
  intros Hd Hq path [Hp1 Hp2].
  destruct path as [|k rest].
  { exfalso. apply Hp1. by exists [a; b]. }
  cbn [lookup_path]. destruct (decide (k = a)) as [->|Hk].
  - rewrite lookup_insert_eq, Hd.
    destruct rest as [|k2 rest].
    { exfalso. apply Hp1. by exists [b]. }
    cbn [lookup_path]. rewrite Hq; [done|].
    intros ->. apply Hp2. by exists rest.
  - by rewrite lookup_insert_ne.
Qed.

Lemma apart_environment_ca_cert :
  apart ["query"; "environment"] ["puppetdb"; "ca_cert"].
Proof. split; intros [k Hk]; discriminate Hk. Qed.

Lemma apart_sym p q : apart p q -> apart q p.
Proof. intros [H1 H2]. by split. Qed.

(** What the override does to the configuration. *)
Lemma override_environment_Ok args cfg cfg1 :
  override_environment args cfg = Ok cfg1 ->
  differs_at "query" "environment" cfg cfg1 /\
  match Args.environment args with
  | Some env =>
      if decide (env = "") then cfg1 = cfg
      else lookup_path ["query"; "environment"] cfg1 = Some (VStr env)
  | None => cfg1 = cfg
  end.
Proof.
  unfold override_environment. destruct (Args.environment args) as [env|].
  - destruct (decide (env = "")) as [->|Hne].
    + intros [= <-]. split; [apply differs_at_refl|done].
    + rewrite bool_decide_eq_false_2 by done. intros H.
      apply bind_Ok_inv in H as (query & Hq & H).
      apply bind_Ok_inv in H as (query' & Hq' & H).
      destruct cfg as [| | | | | | | |d]; try discriminate.
      unfold getitem in Hq. destruct (d !! "query") as [v|] eqn:Hd; [|discriminate].
      injection Hq as ->.
      destruct query as [| | | | | | | |q]; try discriminate.
      injection Hq' as <-. injection H as <-. split.
      * apply (differs_at_update _ _ _ q); [done|]. intros k Hk. by rewrite lookup_insert_ne.
      * cbn [lookup_path]. by rewrite lookup_insert_eq, lookup_insert_eq.
  - intros [= <-]. split; [apply differs_at_refl|done].
Qed.

(** What [db_connect] does to the configuration that holds its section. *)
Lemma db_connect_frame connect d1 section environ pdb section' environ' :
  d1 !! "puppetdb" = Some section ->
  db_connect connect section environ = (pdb, section', environ') ->
  differs_at "puppetdb" "ca_cert" (VDict d1) (VDict (<["puppetdb" := section']> d1)) /\
  (forall ds, section = VDict ds ->
     lookup_path ["puppetdb"; "ca_cert"] (VDict (<["puppetdb" := section']> d1)) = None) /\
  ((forall ds, section <> VDict ds) -> section' = section).
Proof.
  intros Hd H.
  assert ((exists ds, section = VDict ds /\ section' = VDict (delete "ca_cert" ds)) \/
          ((forall ds, section <> VDict ds) /\ section' = section)) as [(ds & -> & ->)|[Hn ->]].
  { unfold db_connect in H. destruct section as [| | | | | | | |ds];
      try (right; split; [discriminate|congruence]).
    left. exists ds. split; [done|].
    destruct (truthy _); [|congruence]. destruct (default _ _); congruence. }
  - split; [|split].
    + apply (differs_at_update _ _ _ ds); [done|]. intros k Hk. by rewrite lookup_delete_ne.
    + intros _ _. cbn [lookup_path]. by rewrite lookup_insert_eq, lookup_delete_eq.
    + intros Hn. by destruct (Hn ds).
  - rewrite insert_id by done. split; [apply differs_at_refl|]. split; [|done].
    intros ds ->. by destruct (Hn ds).
Qed.

Lemma override_environment_Raise args cfg e :
  override_environment args cfg = Raise e ->
  exists env, Args.environment args = Some env /\ env <> "".
Proof.
  unfold override_environment. destruct (Args.environment args) as [env|]; [|discriminate].
  destruct (decide (env = "")) as [->|Hne]; [discriminate|]. intros _. by exists env.
Qed.




(** ** JSON: text *)

Local Open Scope string_scope.

(** [append] is not unfolded by the reduction tactics: its equations. *)
Lemma string_app_cons x (a b : string) : String x a ++ b = String x (a ++ b).
Proof. reflexivity. Qed.

Lemma string_app_nil_l (b : string) : "" ++ b = b.
Proof. reflexivity. Qed.

Ltac str_simpl := rewrite ?string_app_cons, ?string_app_nil_l.

Lemma string_app_assoc (a b c : string) : (a ++ b) ++ c = a ++ (b ++ c).
Proof. induction a as [|x a IH]; [reflexivity|]. str_simpl. by rewrite IH. Qed.

Lemma string_app_nil_r (a : string) : a ++ "" = a.
Proof. induction a as [|x a IH]; [reflexivity|]. str_simpl. by rewrite IH. Qed.

Lemma string_length_app (a b : string) :
  String.length (a ++ b) = (String.length a + String.length b)%nat.
Proof.
  induction a as [|x a IH]; [reflexivity|]. str_simpl. cbn [String.length]. by rewrite IH.
Qed.

Lemma skip_ws_headed s : Json.headed (fun c => negb (Json.is_ws c)) s -> Json.skip_ws s = s.
Proof.
  destruct s as [|c s]; [done|]. cbn [Json.headed Json.skip_ws]. intros H.
  by destruct (Json.is_ws c).
Qed.

Lemma skip_ws_spaces n s : Json.skip_ws (Json.spaces n ++ s) = Json.skip_ws s.
Proof. induction n as [|n IH]; [reflexivity|]. exact IH. Qed.

Lemma skip_ws_newline_indent indent level s :
  Json.skip_ws (Json.newline_indent indent level ++ s) = Json.skip_ws s.
Proof. unfold Json.newline_indent. str_simpl. cbn. apply skip_ws_spaces. Qed.

Lemma starts_value_not_ws s :
  Json.headed Json.starts_value s -> Json.headed (fun c => negb (Json.is_ws c)) s.
Proof.
  destruct s as [|c s]; [done|]. cbn [Json.headed].
  destruct c as [[] [] [] [] [] [] [] []]; by vm_compute.
Qed.

Lemma headed_app p a b : Json.headed p a -> Json.headed p (a ++ b).
Proof. by destruct a. Qed.

(** What [scanstring] makes of the escape of a character. *)
Lemma scanstring_escape_char c rest :
  Json.scanstring Json.Plain (Json.escape_char c ++ rest) =
  '(str, rest') ← Json.scanstring Json.Plain rest; Ok (String c str, rest').
Proof. destruct c as [[] [] [] [] [] [] [] []]; reflexivity. Qed.

Lemma scanstring_escape_chars s rest :
  Json.scanstring Json.Plain (Json.escape_chars s ++ String Json.dquote rest) = Ok (s, rest).
Proof.
  induction s as [|c s IH]; [reflexivity|].
  cbn [Json.escape_chars]. rewrite string_app_assoc, scanstring_escape_char, IH.
  reflexivity.
Qed.

Lemma length_newline_indent indent level :
  String.length (Json.newline_indent indent level) = S (indent * level).
Proof.
  unfold Json.newline_indent. cbn [String.length]. f_equal.
  induction (indent * level)%nat as [|n IH]; [reflexivity|].
  cbn [Json.spaces String.length]. by rewrite IH.
Qed.

(** ** JSON: numbers *)

Lemma pretty_N_char_digit d :
  (d < 10)%N ->
  Json.is_digit (pretty_N_char d) = true /\
  Json.digit_value (pretty_N_char d) = Z.of_N d /\
  (d <> 0%N -> pretty_N_char d <> "0"%char).
Proof.
  intros Hd.
  assert (d = 0 \/ d = 1 \/ d = 2 \/ d = 3 \/ d = 4 \/ d = 5 \/ d = 6 \/ d = 7 \/
          d = 8 \/ d = 9)%N as H by lia.
  repeat destruct H as [->|H]; try subst d; by vm_compute.
Qed.

(** The digits of a number come before what is already written. *)
Lemma pretty_N_go_app x s : pretty_N_go x s = pretty_N_go x "" ++ s.
Proof.
  revert s. induction (N.lt_wf_0 x) as [x _ IH]. intros s.
  destruct (decide (x = 0%N)) as [->|Hx]; [by rewrite !pretty_N_go_0|].
  rewrite (pretty_N_go_step x s), (pretty_N_go_step x "") by lia.
  rewrite (IH (x `div` 10)%N) by (apply N.div_lt; lia).
  rewrite (IH (x `div` 10)%N ltac:(apply N.div_lt; lia) (String _ "")).
  by rewrite string_app_assoc.
Qed.

Lemma pretty_N_go_snoc x :
  (0 < x)%N ->
  pretty_N_go x "" =
  pretty_N_go (x `div` 10) "" ++ String (pretty_N_char (x `mod` 10)) "".
Proof. intros Hx. by rewrite pretty_N_go_step, pretty_N_go_app. Qed.

Lemma span_digits_pretty x rest :
  Json.span_digits (pretty_N_go x "" ++ rest) =
  let '(ds, r) := Json.span_digits rest in (pretty_N_go x "" ++ ds, r).
Proof.
  revert rest. induction (N.lt_wf_0 x) as [x _ IH]. intros rest.
  destruct (decide (x = 0%N)) as [->|Hx].
  { rewrite pretty_N_go_0. str_simpl. by destruct (Json.span_digits rest). }
  rewrite pretty_N_go_snoc by lia. rewrite string_app_assoc. str_simpl.
  rewrite IH by (apply N.div_lt; lia). cbn [Json.span_digits].
  destruct (pretty_N_char_digit (x `mod` 10)) as [-> _]; [by apply N.mod_lt|].
  destruct (Json.span_digits rest) as [ds r].
  by rewrite string_app_assoc.
Qed.

Lemma span_digits_pretty_all x :
  Json.span_digits (pretty_N_go x "") = (pretty_N_go x "", "").
Proof.
  pose proof (span_digits_pretty x "") as H.
  change (Json.span_digits "") with ("", "") in H. cbv beta iota in H.
  by rewrite !string_app_nil_r in H.
Qed.

Lemma digits_value_app acc a b :
  Json.digits_value acc (a ++ b) = Json.digits_value (Json.digits_value acc a) b.
Proof.
  revert acc. induction a as [|c a IH]; intros acc; [reflexivity|].
  str_simpl. cbn [Json.digits_value]. apply IH.
Qed.

Lemma digits_value_pretty x : Json.digits_value 0 (pretty_N_go x "") = Z.of_N x.
Proof.
  induction (N.lt_wf_0 x) as [x _ IH].
  destruct (decide (x = 0%N)) as [->|Hx]; [reflexivity|].
  rewrite pretty_N_go_snoc by lia. rewrite digits_value_app.
  rewrite IH by (apply N.div_lt; lia). cbn [Json.digits_value].
  destruct (pretty_N_char_digit (x `mod` 10)) as (_ & -> & _); [by apply N.mod_lt|].
  pose proof (N.div_mod x 10 ltac:(done)) as H.
  apply (f_equal Z.of_N) in H. rewrite N2Z.inj_add, N2Z.inj_mul in H.
  change (Z.of_N 10) with 10 in H. symmetry. exact H.
Qed.

(** A positive number is written with a first digit other than zero. *)
Lemma pretty_N_go_head x :
  (0 < x)%N ->
  exists c s, pretty_N_go x "" = String c s /\
    Json.is_digit c = true /\ c <> "0"%char.
Proof.
  induction (N.lt_wf_0 x) as [x _ IH]. intros Hx.
  rewrite pretty_N_go_snoc by done.
  destruct (decide (x `div` 10 = 0)%N) as [Hd|Hd].
  - rewrite Hd, pretty_N_go_0. str_simpl.
    destruct (pretty_N_char_digit (x `mod` 10)) as (Hdig & _ & Hnz); [by apply N.mod_lt|].
    eexists _, _. split; [reflexivity|]. split; [done|]. apply Hnz.
    intros Hm. pose proof (N.div_mod x 10 ltac:(done)) as E. rewrite Hd, Hm in E. lia.
  - destruct (IH (x `div` 10)%N) as (c & s & -> & Hc & Hnz);
      [apply N.div_lt; lia|by apply N.neq_0_lt_0|].
    str_simpl. by eexists _, _.
Qed.

Lemma digit_ends_number c : Json.ends_number c = true -> Json.is_digit c = false.
Proof. unfold Json.ends_number. by destruct (Json.is_digit c). Qed.

Lemma span_digits_follows rest : Json.follows rest -> Json.span_digits rest = ("", rest).
Proof.
  destruct rest as [|c rest]; [done|]. cbn [Json.follows Json.span_digits].
  intros H. by rewrite (digit_ends_number _ H).
Qed.

(** Reading digits is not disturbed by a text appended that cannot
    continue a number. *)
Lemma span_digits_stable s rest :
  Json.follows rest ->
  Json.span_digits (s ++ rest) =
  let '(ds, r) := Json.span_digits s in (ds, r ++ rest).
Proof.
  intros Hf. induction s as [|c s IH].
  - str_simpl. by rewrite span_digits_follows.
  - str_simpl. cbn [Json.span_digits]. destruct (Json.is_digit c); [|reflexivity].
    rewrite IH. by destruct (Json.span_digits s).
Qed.

Lemma scan_int_stable s rest :
  Json.follows rest ->
  Json.scan_int (s ++ rest) = let '(i, r) := Json.scan_int s in (i, r ++ rest).
Proof.
  intros Hf. unfold Json.scan_int. destruct s as [|c s].
  - str_simpl. rewrite span_digits_follows by done.
    destruct rest as [|c rest]; [reflexivity|].
    cbn [Json.follows] in Hf.
    assert (bool_decide (c = "-"%char) = false) as ->.
    { revert Hf. unfold Json.ends_number. destruct (bool_decide (c = "-"%char)); [|done].
      by rewrite !orb_true_r. }
    by rewrite (span_digits_follows (String c rest)).
  - str_simpl. destruct (bool_decide (c = "-"%char)).
    + rewrite span_digits_stable by done.
      destruct (Json.span_digits s) as [[|d ds] r]; [reflexivity|].
      destruct (bool_decide (d = "0"%char)); [|reflexivity].
      by rewrite string_app_assoc.
    + rewrite <- string_app_cons. rewrite span_digits_stable by done.
      destruct (Json.span_digits (String c s)) as [[|d ds] r]; [reflexivity|].
      destruct (bool_decide (d = "0"%char)); [|reflexivity].
      by rewrite string_app_assoc.
Qed.

Lemma scan_frac_stable s rest :
  Json.follows rest ->
  Json.scan_frac (s ++ rest) = let '(f, r) := Json.scan_frac s in (f, r ++ rest).
Proof.
  intros Hf. unfold Json.scan_frac. destruct s as [|c s].
  - str_simpl. destruct rest as [|c rest]; [reflexivity|].
    cbn [Json.follows] in Hf.
    assert (bool_decide (c = "."%char) = false) as ->; [|reflexivity].
    revert Hf. unfold Json.ends_number. destruct (bool_decide (c = "."%char)); [|done].
    by rewrite !orb_true_r.
  - str_simpl. destruct (bool_decide (c = "."%char)); [|reflexivity].
    rewrite span_digits_stable by done.
    by destruct (Json.span_digits s) as [[|d ds] r].
Qed.

Lemma scan_sign_stable s rest :
  Json.follows rest ->
  Json.scan_sign (s ++ rest) = let '(g, r) := Json.scan_sign s in (g, r ++ rest).
Proof.
  intros Hf. unfold Json.scan_sign. destruct s as [|c s].
  - str_simpl. destruct rest as [|c rest]; [reflexivity|].
    cbn [Json.follows] in Hf.
    assert (bool_decide (c = "+"%char) || bool_decide (c = "-"%char) = false) as ->;
      [|reflexivity].
    revert Hf. unfold Json.ends_number.
    destruct (bool_decide (c = "+"%char)), (bool_decide (c = "-"%char));
      rewrite ?orb_true_r; done.
  - str_simpl. by destruct (_ || _).
Qed.

Lemma scan_exp_stable s rest :
  Json.follows rest ->
  Json.scan_exp (s ++ rest) = let '(e, r) := Json.scan_exp s in (e, r ++ rest).
Proof.
  intros Hf. unfold Json.scan_exp. destruct s as [|c s].
  - str_simpl. destruct rest as [|c rest]; [reflexivity|].
    cbn [Json.follows] in Hf.
    assert (bool_decide (c = "e"%char) || bool_decide (c = "E"%char) = false) as ->;
      [|reflexivity].
    revert Hf. unfold Json.ends_number.
    destruct (bool_decide (c = "e"%char)), (bool_decide (c = "E"%char));
      rewrite ?orb_true_r; done.
  - str_simpl. destruct (_ || _); [|reflexivity].
    rewrite scan_sign_stable by done. destruct (Json.scan_sign s) as [g s2].
    rewrite span_digits_stable by done.
    by destruct (Json.span_digits s2) as [[|d ds] r].
Qed.

Lemma scan_number_stable s rest t r :
  Json.follows rest ->
  Json.scan_number s = Some (t, r) ->
  Json.scan_number (s ++ rest) = Some (t, r ++ rest).
Proof.
  intros Hf. unfold Json.scan_number.
  rewrite scan_int_stable by done. destruct (Json.scan_int s) as [i s1].
  destruct (bool_decide (i = "")); [discriminate|].
  rewrite scan_frac_stable by done. destruct (Json.scan_frac s1) as [f s2].
  rewrite scan_exp_stable by done. destruct (Json.scan_exp s2) as [e s3].
  destruct (_ && _); by intros [= <- <-].
Qed.

Lemma digit_not_minus c : Json.is_digit c = true -> bool_decide (c = "-"%char) = false.
Proof. destruct c as [[] [] [] [] [] [] [] []]; by vm_compute. Qed.

Lemma scan_number_digits c s :
  Json.is_digit c = true -> c <> "0"%char ->
  Json.span_digits (String c s) = (String c s, "") ->
  Json.scan_number (String c s) = Some (Json.JInt (Json.digits_value 0 (String c s)), "") /\
  Json.scan_number (String "-" (String c s)) =
    Some (Json.JInt (- Json.digits_value 0 (String c s)), "").
Proof.
  intros Hc Hnz Hspan. unfold Json.scan_number, Json.scan_int.
  rewrite (digit_not_minus c Hc). rewrite bool_decide_eq_true_2 by done.
  rewrite Hspan. rewrite (bool_decide_eq_false_2 _ Hnz). str_simpl.
  rewrite !bool_decide_eq_false_2 by done.
  cbn [Json.scan_frac Json.scan_exp]. rewrite !bool_decide_eq_true_2 by done.
  cbn [andb]. unfold Json.int_of_literal.
  rewrite (digit_not_minus c Hc). by rewrite bool_decide_eq_true_2.
Qed.

(** What [str] prints for an integer is read back as that integer. *)
Lemma scan_number_pretty (n : Z) rest :
  Json.follows rest ->
  Json.scan_number (pretty n ++ rest) = Some (Json.JInt n, rest).
Proof.
  intros Hf.
  assert (Json.scan_number (pretty n) = Some (Json.JInt n, "")) as H.
  { destruct n as [|p|p]; [reflexivity|..].
    - unfold pretty, pretty_Z, pretty, pretty_positive, pretty, pretty_N.
      rewrite decide_False by done.
      destruct (pretty_N_go_head (N.pos p)) as (c & s & Hps & Hc & Hnz); [done|].
      pose proof (span_digits_pretty_all (N.pos p)) as Hspan.
      pose proof (digits_value_pretty (N.pos p)) as Hval.
      rewrite Hps in *.
      destruct (scan_number_digits c s Hc Hnz Hspan) as [-> _]. by rewrite Hval.
    - unfold pretty, pretty_Z, pretty, pretty_positive, pretty, pretty_N.
      rewrite decide_False by done.
      destruct (pretty_N_go_head (N.pos p)) as (c & s & Hps & Hc & Hnz); [done|].
      pose proof (span_digits_pretty_all (N.pos p)) as Hspan.
      pose proof (digits_value_pretty (N.pos p)) as Hval.
      rewrite Hps in *. str_simpl.
      destruct (scan_number_digits c s Hc Hnz Hspan) as [_ ->]. by rewrite Hval. }
  by rewrite (scan_number_stable _ _ _ _ Hf H).
Qed.

(** A float literal is read back as the float it carries. *)
Lemma scan_number_float r rest :
  Json.float_literal r = true -> Json.follows rest ->
  Json.scan_number (r ++ rest) = Some (Json.JFloat (FFinite r), rest).
Proof.
  unfold Json.float_literal. intros Hr Hf.
  destruct (Json.scan_number r) as [[t r']|] eqn:E; [|discriminate].
  destruct t as [| | |[| |r'']| | |]; try discriminate.
  destruct r'; [|discriminate]. apply bool_decide_eq_true_1 in Hr as ->.
  by rewrite (scan_number_stable _ _ _ _ Hf E).
Qed.

Lemma scan_number_headed s found :
  Json.scan_number s = Some found ->
  Json.headed (fun c => Json.is_digit c || bool_decide (c = "-"%char)) s.
Proof.
  unfold Json.scan_number, Json.scan_int. destruct s as [|c s]; [done|].
  cbn [Json.headed].
  destruct (bool_decide (c = "-"%char)) eqn:Hm; [by rewrite orb_true_r|].
  cbn [Json.span_digits]. destruct (Json.is_digit c); [done|]. done.
Qed.

Lemma number_head_facts c :
  Json.is_digit c || bool_decide (c = "-"%char) = true ->
  Json.starts_value c = true /\
  bool_decide (c = Json.dquote) = false /\
  bool_decide (c = "{"%char) = false /\
  bool_decide (c = "["%char) = false /\
  bool_decide ("n"%char = c) = false /\
  bool_decide ("t"%char = c) = false /\
  bool_decide ("f"%char = c) = false.
Proof. destruct c as [[] [] [] [] [] [] [] []]; by vm_compute. Qed.

(** A text that starts with a number is read by [scan_once] as that
    number. *)
Lemma scan_once_number constants fuel s found :
  Json.scan_number s = Some found ->
  Json.scan_once constants (S fuel) s = Ok found.
Proof.
  intros H. pose proof (scan_number_headed _ _ H) as Hh.
  destruct s as [|c s]; [done|]. cbn [Json.headed] in Hh.
  destruct (number_head_facts c Hh) as (_ & Hq & Hb & Hk & Hn & Ht & Hf).
  cbn [Json.scan_once]. rewrite Hq, Hb, Hk. unfold Json.scan_atom.
  cbn [Json.keyword]. rewrite Hn, Ht, Hf. by rewrite H.
Qed.

Ltac len_solve :=
  repeat (progress (rewrite ?string_length_app, ?length_newline_indent in *;
                    cbn [String.length] in * ));
  lia.

Lemma render_headed indent level t :
  Json.finite t -> Json.headed Json.starts_value (Json.render indent level t).
Proof.
  intros Ht. destruct Ht as [|[]| | | |elements _|members _]; try done.
  - pose proof (scan_number_pretty n "" I) as H. rewrite string_app_nil_r in H.
    apply scan_number_headed in H. cbn [Json.render].
    destruct (pretty n) as [|c s]; [done|]. by apply number_head_facts.
  - pose proof (scan_number_float r "" H I) as H'. rewrite string_app_nil_r in H'.
    apply scan_number_headed in H'. cbn [Json.render Json.floatstr].
    destruct r as [|c s]; [done|]. by apply number_head_facts.
  - cbn [Json.render]. unfold Json.wrap. by destruct (map _ elements).
  - cbn [Json.render]. unfold Json.wrap. by destruct (map _ members).
Qed.


(** ** JSON: reading back what the encoder wrote *)

Lemma skip_ws_space s : Json.skip_ws (String " " s) = Json.skip_ws s.
Proof. reflexivity. Qed.

Lemma join_headed sep (chunks : list string) p :
  match chunks with
  | c :: _ => Json.headed p c
  | [] => False
  end -> Json.headed p (Json.join sep chunks).
Proof.
  destruct chunks as [|c [|c' chunks]]; [done|done|].
  intros H. cbn [Json.join]. by apply headed_app.
Qed.

Lemma join_cons2 sep c c' (chunks : list string) :
  Json.join sep (c :: c' :: chunks) = c ++ sep ++ Json.join sep (c' :: chunks).
Proof. reflexivity. Qed.

Lemma item_separator_app s : Json.item_separator ++ s = String "," (String " " s).
Proof. reflexivity. Qed.

Lemma key_separator_app s : Json.key_separator ++ s = String ":" (String " " s).
Proof. reflexivity. Qed.

Section RoundTrip.

Variable constants : bool.
Variable indent : nat.

Local Abbreviation reads_back := (Json.reads_back constants indent).
Local Abbreviation item := (Json.item indent).

Lemma elements_render level (l : list Json.jtree) tail rest :
  l <> [] ->
  (forall t, t ∈ l -> Json.finite t /\ reads_back level t) ->
  Json.follows tail -> Json.skip_ws tail = String "]" rest ->
  forall fuel,
    (2 * String.length
           (Json.join (Json.item_separator ++ Json.newline_indent indent level)
              (map (Json.render indent level) l) ++ tail) + 1 < fuel)%nat ->
    Json.elements constants fuel
      (Json.join (Json.item_separator ++ Json.newline_indent indent level)
         (map (Json.render indent level) l) ++ tail) = Ok (l, rest).
Proof.
  intros Hne Hall Hf Htail.
  set (sep := Json.item_separator ++ Json.newline_indent indent level).
  induction l as [|x l IH]; [done|]. clear Hne. intros fuel Hfuel.
  destruct (Hall x) as [Hfin Hx]; [by left|].
  destruct fuel as [|fuel]; [lia|]. cbn [Json.elements].
  destruct l as [|y l].
  - cbn [map Json.join] in *. rewrite Hx; [|done|lia].
    rewrite bind_Ok. cbv beta iota. rewrite Htail.
    by rewrite bool_decide_eq_true_2.
  - cbn [map] in *. rewrite join_cons2 in Hfuel |- *.
    rewrite !string_app_assoc in Hfuel |- *.
    unfold sep in Hfuel at 1. unfold sep at 1.
    rewrite string_app_assoc, item_separator_app in Hfuel |- *.
    rewrite Hx; [|done|len_solve].
    rewrite bind_Ok. cbv beta iota.
    rewrite skip_ws_headed by done.
    rewrite bool_decide_eq_false_2 by done. rewrite bool_decide_eq_true_2 by done.
    rewrite skip_ws_space, skip_ws_newline_indent.
    rewrite skip_ws_headed.
    2:{ apply starts_value_not_ws, headed_app.
        apply (join_headed _ (_ :: _)), render_headed.
        apply (Hall y). right. by left. }
    rewrite IH; [done|done| |].
    + intros t Ht. apply Hall. by right.
    + len_solve.
Qed.

Lemma members_render level (l : list (string * Json.jtree)) tail rest :
  l <> [] ->
  (forall k t, (k, t) ∈ l -> Json.finite t /\ reads_back level t) ->
  Json.follows tail -> Json.skip_ws tail = String "}" rest ->
  forall fuel body,
    Json.join (Json.item_separator ++ Json.newline_indent indent level)
      (map (item level) l) ++ tail = String Json.dquote body ->
    (2 * String.length body + 1 < fuel)%nat ->
    Json.members constants fuel body = Ok (l, rest).
Proof.
  intros Hne Hall Hf Htail.
  set (sep := Json.item_separator ++ Json.newline_indent indent level).
  induction l as [|[k x] l IH]; [done|]. clear Hne. intros fuel body Hbody Hfuel.
  destruct (Hall k x) as [Hfin Hx]; [by left|].
  destruct fuel as [|fuel]; [lia|]. cbn [Json.members].
  destruct l as [|[k' y] l].
  - cbn [map Json.join] in Hbody. unfold item, Json.encode_basestring_ascii in Hbody.
    cbn [fst snd] in Hbody.
    rewrite !string_app_cons, !string_app_assoc, !string_app_cons, string_app_nil_l,
      key_separator_app in Hbody.
    injection Hbody as <-.
    rewrite scanstring_escape_chars, bind_Ok. cbv beta iota.
    rewrite skip_ws_headed by done. rewrite bool_decide_eq_true_2 by done.
    rewrite skip_ws_space, skip_ws_headed
      by (apply starts_value_not_ws, headed_app, render_headed, Hfin).
    rewrite Hx; [|done|len_solve].
    rewrite bind_Ok. cbv beta iota. rewrite Htail.
    by rewrite bool_decide_eq_true_2.
  - cbn [map] in *. rewrite join_cons2 in Hbody.
    unfold item at 1, Json.encode_basestring_ascii in Hbody. cbn [fst snd] in Hbody.
    unfold sep in Hbody at 1.
    rewrite !string_app_cons, !string_app_assoc, !string_app_cons, string_app_nil_l,
      key_separator_app, item_separator_app in Hbody.
    set (T := Json.join sep (item level (k', y) :: map (item level) l) ++ tail) in *.
    injection Hbody as <-.
    rewrite scanstring_escape_chars, bind_Ok. cbv beta iota.
    rewrite skip_ws_headed by done. rewrite bool_decide_eq_true_2 by done.
    rewrite skip_ws_space, skip_ws_headed
      by (apply starts_value_not_ws, headed_app, render_headed, Hfin).
    rewrite Hx; [|done|len_solve].
    rewrite bind_Ok. cbv beta iota.
    rewrite skip_ws_headed by done.
    rewrite bool_decide_eq_false_2 by done. rewrite bool_decide_eq_true_2 by done.
    rewrite skip_ws_space, skip_ws_newline_indent.
    assert (exists body', T = String Json.dquote body') as [body' Hbody'].
    { unfold T. destruct l; cbn [map Json.join]; unfold item at 1, Json.encode_basestring_ascii;
        rewrite !string_app_cons; by eexists. }
    rewrite Hbody' in Hfuel |- *. rewrite skip_ws_headed by done.
    rewrite bool_decide_eq_true_2 by done.
    rewrite (IH ltac:(done)) with (body := body'); [done| |done|].
    + intros k0 t Ht. apply (Hall k0 t). by right.
    + len_solve.
Qed.

(** The decoder reads the text of a tree back as the tree. *)
Lemma scan_once_render t : Json.finite t -> forall level, reads_back level t.
Proof.
  induction 1 as [|b|n|r Hr|s|elements Hfin IH|members Hfin IH];
    intros level rest fuel Hf Hfuel; (destruct fuel as [|fuel]; [lia|]).
  - reflexivity.
  - by destruct b.
  - apply scan_once_number. by apply scan_number_pretty.
  - apply scan_once_number. by apply scan_number_float.
  - cbn [Json.render]. unfold Json.encode_basestring_ascii.
    rewrite !string_app_cons, string_app_assoc, string_app_cons, string_app_nil_l.
    cbn [Json.scan_once]. rewrite bool_decide_eq_true_2 by done.
    by rewrite scanstring_escape_chars.
  - cbn [Json.render] in *. unfold Json.wrap in *.
    destruct elements as [|x elements]; [reflexivity|].
    cbn [map] in Hfuel |- *.
    change (Json.render indent (S level) x :: map (Json.render indent (S level)) elements)
      with (map (Json.render indent (S level)) (x :: elements)) in *.
    set (l := x :: elements) in *.
    rewrite !string_app_assoc in Hfuel |- *. rewrite ?string_app_cons, ?string_app_nil_l in *.
    cbn [Json.scan_once]. rewrite !bool_decide_eq_false_2 by done.
    rewrite bool_decide_eq_true_2 by done.
    rewrite skip_ws_newline_indent.
    assert (Json.headed Json.starts_value
              (Json.join (Json.item_separator ++ Json.newline_indent indent (S level))
                 (map (Json.render indent (S level)) l) ++
               Json.newline_indent indent level ++ String "]" rest)) as Hh.
    { apply headed_app. apply (join_headed _ (_ :: _)), render_headed, Hfin. by left. }
    rewrite skip_ws_headed by (by apply starts_value_not_ws).
    destruct (Json.join _ _ ++ _) as [|c1 s1] eqn:E; [done|]. cbn [Json.headed] in Hh.
    assert (bool_decide (c1 = "]"%char) = false) as ->.
    { apply bool_decide_eq_false_2. intros ->. discriminate Hh. }
    rewrite <- E.
    rewrite (elements_render (S level) l _ rest); [done|done| |done| |].
    + intros t Ht. split; [by apply Hfin|]. by apply IH.
    + by rewrite skip_ws_newline_indent.
    + rewrite E. apply (f_equal String.length) in E. len_solve.
  - cbn [Json.render] in *. unfold Json.wrap in *.
    destruct members as [|kx members]; [reflexivity|].
    cbn [map] in Hfuel |- *.
    change (_ :: map _ members) with (map (item (S level)) (kx :: members)) in *.
    set (l := kx :: members) in *.
    rewrite !string_app_assoc in Hfuel |- *. rewrite ?string_app_cons, ?string_app_nil_l in *.
    cbn [Json.scan_once]. rewrite !bool_decide_eq_false_2 by done.
    rewrite bool_decide_eq_true_2 by done.
    rewrite skip_ws_newline_indent.
    assert (exists body,
              Json.join (Json.item_separator ++ Json.newline_indent indent (S level))
                (map (item (S level)) l) ++
              Json.newline_indent indent level ++ String "}" rest =
              String Json.dquote body) as [body Hbody].
    { unfold l. destruct kx as [k x]. destruct members; cbn [map Json.join];
        unfold item at 1, Json.encode_basestring_ascii; rewrite !string_app_cons; by eexists. }
    rewrite Hbody in Hfuel |- *. rewrite skip_ws_headed by done.
    rewrite bool_decide_eq_false_2 by done. rewrite bool_decide_eq_true_2 by done.
    rewrite (members_render (S level) l
               (Json.newline_indent indent level ++ String "}" rest) rest)
      with (body := body); [done|done| |done| |done|].
    + intros k t Ht. split; [by eapply Hfin|]. by eapply IH.
    + by rewrite skip_ws_newline_indent.
    + len_solve.
Qed.

End RoundTrip.

(** ** JSON: the items of a dictionary *)

Local Open Scope list_scope.

Lemma insert_item_perm {A} (kv : string * A) items :
  Json.insert_item kv items ≡ₚ kv :: items.
Proof.
  induction items as [|kv' items IH]; [done|]. cbn [Json.insert_item].
  destruct (kv.1 <=? kv'.1)%string; [done|]. rewrite IH. apply Permutation_swap.
Qed.

Lemma insert_item_sorted {A} (kv : string * A) items :
  Sorted Json.key_le items.*1 -> Sorted Json.key_le (Json.insert_item kv items).*1.
Proof.
  induction items as [|kv' items IH]; intros Hs.
  - repeat constructor.
  - cbn [Json.insert_item]. destruct (kv.1 <=? kv'.1)%string eqn:Hle.
    + constructor; [done|]. by constructor.
    + apply Sorted_inv in Hs as [Hs Hhd]. cbn [fmap list_fmap]. constructor; [by apply IH|].
      assert (Json.key_le kv'.1 kv.1) as Hge.
      { destruct (String.leb_total kv.1 kv'.1) as [H|H]; [congruence|done]. }
      destruct items as [|kv'' items]; [by constructor|].
      cbn [Json.insert_item]. destruct (kv.1 <=? kv''.1)%string; constructor; [done|].
      by apply HdRel_inv in Hhd.
Qed.

Lemma items_of_foldr {A} (f : pyval -> A) d :
  Json.items_of f d =
  foldr (fun kv items => Json.insert_item (kv.1, f kv.2) items) [] (map_to_list d).
Proof.
  unfold Json.items_of. rewrite map_fold_foldr. apply foldr_ext; [|done..].
  by intros [k v] items.
Qed.

Lemma items_of_perm {A} (f : pyval -> A) d :
  Json.items_of f d ≡ₚ (fun kv => (kv.1, f kv.2)) <$> map_to_list d.
Proof.
  rewrite items_of_foldr. induction (map_to_list d) as [|kv l IH]; [done|].
  cbn [foldr fmap list_fmap]. by rewrite insert_item_perm, IH.
Qed.

Lemma items_of_sorted {A} (f : pyval -> A) d : Sorted Json.key_le (Json.items_of f d).*1.
Proof.
  rewrite items_of_foldr. induction (map_to_list d) as [|kv l IH]; [constructor|].
  cbn [foldr]. by apply insert_item_sorted.
Qed.

Lemma items_of_keys {A} (f : pyval -> A) d : (Json.items_of f d).*1 ≡ₚ (map_to_list d).*1.
Proof.
  rewrite items_of_perm. rewrite <- list_fmap_compose.
  by rewrite (list_fmap_ext _ fst (map_to_list d)).
Qed.

Lemma items_of_NoDup {A} (f : pyval -> A) d : NoDup (Json.items_of f d).*1.
Proof. rewrite items_of_keys. apply NoDup_fst_map_to_list. Qed.

Lemma elem_of_items_of {A} (f : pyval -> A) d k t :
  (k, t) ∈ Json.items_of f d <-> exists v, d !! k = Some v /\ t = f v.
Proof.
  rewrite items_of_perm, list_elem_of_fmap. split.
  - intros ([k' v] & [= -> ->] & Hin). apply elem_of_map_to_list in Hin. by exists v.
  - intros (v & Hv & ->). exists (k, v). split; [done|]. by apply elem_of_map_to_list.
Qed.

Lemma dict_items_other {A} (f : A -> pyval) pairs d0 k :
  k ∉ pairs.*1 -> Json.dict_items f pairs d0 !! k = d0 !! k.
Proof.
  revert d0. induction pairs as [|[k' v'] pairs IH]; intros d0 Hk; [done|].
  cbn [Json.dict_items]. apply not_elem_of_cons in Hk as [Hne Hk].
  rewrite IH by done. by rewrite lookup_insert_ne.
Qed.

Lemma dict_items_lookup {A} (f : A -> pyval) pairs d0 k v :
  NoDup pairs.*1 -> (k, v) ∈ pairs ->
  Json.dict_items f pairs d0 !! k = Some (f v).
Proof.
  revert d0. induction pairs as [|[k' v'] pairs IH]; intros d0 Hnd Hin.
  - by apply elem_of_nil in Hin.
  - cbn [Json.dict_items]. apply NoDup_cons in Hnd as [Hk' Hnd].
    apply elem_of_cons in Hin as [[= -> ->]|Hin].
    + rewrite dict_items_other by done. by rewrite lookup_insert_eq.
    + by apply IH.
Qed.

(** ** JSON: the tree of a document *)

Lemma tree_of_finite v : json_clean v -> Json.finite (Json.tree_of v).
Proof.
  induction 1 as [|b|n Hn|n Hn|r Hr|s Hs|s|l Hl IH|d Hd IH]; cbn [Json.tree_of];
    try by constructor.
  - constructor. intros t Ht. apply list_elem_of_In, in_map_iff in Ht as (x & <- & Hx).
    by apply IH, list_elem_of_In.
  - constructor. intros k t Ht. apply elem_of_items_of in Ht as (x & Hx & ->). by eapply IH.
Qed.

Lemma tree_of_ordered v : json_clean v -> Json.ordered (Json.tree_of v).
Proof.
  induction 1 as [|b|n Hn|n Hn|r Hr|s Hs|s|l Hl IH|d Hd IH]; cbn [Json.tree_of];
    try by constructor.
  - constructor. intros t Ht. apply list_elem_of_In, in_map_iff in Ht as (x & <- & Hx).
    by apply IH, list_elem_of_In.
  - constructor; [apply items_of_sorted|apply items_of_NoDup|].
    intros k t Ht. apply elem_of_items_of in Ht as (x & Hx & ->). by eapply IH.
Qed.

(** The object of the tree of a value is the value, its [str] objects
    turned into [unicode] objects. *)
Lemma of_tree_tree_of v : json_clean v -> Json.of_tree (Json.tree_of v) = unicode_of v.
Proof.
  induction 1 as [|b|n Hn|n Hn|r Hr|s Hs|s|l Hl IH|d Hd IH];
    cbn [Json.tree_of Json.of_tree unicode_of]; try done.
  - by rewrite bool_decide_eq_true_2.
  - by rewrite bool_decide_eq_false_2.
  - f_equal. rewrite map_map. apply map_ext_in. intros x Hx. by apply IH, list_elem_of_In.
  - f_equal. apply map_eq. intros k. rewrite lookup_fmap.
    destruct (d !! k) as [x|] eqn:Hk; cbn [fmap option_fmap option_map].
    + rewrite (dict_items_lookup _ _ _ k (Json.tree_of x)).
      * f_equal. by eapply IH.
      * apply items_of_NoDup.
      * apply elem_of_items_of. by exists x.
    + rewrite dict_items_other; [done|].
      intros Hin. apply list_elem_of_fmap in Hin as ([k' t] & Heq & Hin).
      cbn in Heq. subst k'.
      apply elem_of_items_of in Hin as (x & Hx & _). congruence.
Qed.

Lemma encodable_clean v : json_clean v -> Json.encodable v = true.
Proof.
  induction 1 as [|b|n Hn|n Hn|r Hr|s Hs|s|l Hl IH|d Hd IH]; cbn [Json.encodable]; try done.
  - apply forallb_forall. intros x Hx. by apply IH, list_elem_of_In.
  - rewrite map_fold_foldr.
    assert (forall kv, kv ∈ map_to_list d -> Json.encodable kv.2 = true) as Hall.
    { intros [k x] Hin. apply elem_of_map_to_list in Hin. by eapply IH. }
    induction (map_to_list d) as [|[k x] kvs IHl]; [done|].
    cbn [foldr uncurry]. pose proof (Hall (k, x) ltac:(by left)) as Hx. cbn in Hx.
    rewrite Hx. cbn [andb].
    apply IHl. intros kv Hin. apply Hall. by right.
Qed.

(** The text of a clean value is read back, by the decoder of JSON
    proper and by [loads], as the tree of the value. *)
Lemma decode_dumps v constants :
  json_clean v ->
  exists text,
    Json.dumps v = Ok text /\
    Json.decode constants text = Ok (Json.tree_of v).
Proof.
  intros Hv. unfold Json.dumps. rewrite (encodable_clean v Hv). eexists. split; [done|].
  pose proof (tree_of_finite v Hv) as Hfin.
  unfold Json.decode.
  rewrite skip_ws_headed by (apply starts_value_not_ws, render_headed, Hfin).
  pose proof (scan_once_render constants 2 _ Hfin 0 "" (S (2 * String.length
                (Json.render 2 0 (Json.tree_of v)))) I) as H.
  rewrite string_app_nil_r in H. rewrite H by lia. by rewrite bind_Ok.
Qed.

(** ** JSON: the documents of the assembler *)

Lemma json_clean_lookup d k x : json_clean (VDict d) -> d !! k = Some x -> json_clean x.
Proof. intros H. inversion H as [| | | | | | | |d' Hd]; subst. apply Hd. Qed.

Lemma json_clean_insert d k x :
  json_clean (VDict d) -> json_clean x -> json_clean (VDict (<[k := x]> d)).
Proof.
  intros Hd Hx. constructor. intros k' x' Hk'.
  destruct (decide (k = k')) as [->|Hne].
  - rewrite lookup_insert_eq in Hk'. by injection Hk' as <-.
  - rewrite lookup_insert_ne in Hk' by done. by eapply json_clean_lookup.
Qed.

Lemma json_clean_empty : json_clean (VDict ∅).
Proof. constructor. intros k x Hk. by rewrite lookup_empty in Hk. Qed.

Lemma json_clean_getitem v k x : json_clean v -> getitem v k = Ok x -> json_clean x.
Proof.
  intros Hv. unfold getitem. destruct v as [| | | | | | | |d]; try discriminate.
  destruct (d !! k) as [y|] eqn:Hk; [|discriminate]. intros [= <-].
  by eapply json_clean_lookup.
Qed.

Lemma json_clean_setitem v k x v' :
  json_clean v -> json_clean x -> setitem v k x = Ok v' -> json_clean v'.
Proof.
  intros Hv Hx. unfold setitem. destruct v as [| | | | | | | |d]; try discriminate.
  intros [= <-]. by apply json_clean_insert.
Qed.

Lemma hostvars_loop_clean facts host_vars hv :
  (forall f, f ∈ facts -> json_clean (Fact.value f)) ->
  json_clean (VDict host_vars) ->
  hostvars_loop host_vars facts = Ok hv -> json_clean (VDict hv).
Proof.
  revert host_vars. induction facts as [|f facts IH]; intros host_vars Hall Hacc H.
  - by injection H as <-.
  - cbn [hostvars_loop] in H. destruct (bool_decide _); [discriminate|].
    eapply IH; [|apply json_clean_insert; [done|]|done].
    + intros f' Hf'. apply Hall. by right.
    + apply Hall. by left.
Qed.

Lemma set_hostvars_clean output name host_vars output' :
  json_clean (VDict output) -> json_clean (VDict host_vars) ->
  set_hostvars output name host_vars = Ok output' -> json_clean (VDict output').
Proof.
  intros Ho Hh H. unfold set_hostvars in H.
  apply bind_Ok_inv in H as (meta & Hmeta & H).
  apply bind_Ok_inv in H as (hostvars & Hhv & H).
  apply bind_Ok_inv in H as (hostvars' & Hhv' & H).
  apply bind_Ok_inv in H as (meta' & Hmeta' & H). injection H as <-.
  pose proof (json_clean_getitem _ _ _ Ho Hmeta) as Cm.
  pose proof (json_clean_getitem _ _ _ Cm Hhv) as Ch.
  pose proof (json_clean_setitem _ _ _ _ Ch Hh Hhv') as Ch'.
  pose proof (json_clean_setitem _ _ _ _ Cm Ch' Hmeta') as Cm'.
  by apply json_clean_insert.
Qed.

Lemma nodes_loop_clean pdb cfg found names0 output0 names output :
  facts_clean pdb ->
  json_clean (VDict output0) ->
  nodes_loop pdb cfg names0 output0 found = Ok (names, output) ->
  json_clean (VDict output).
Proof.
  intros Hfacts. revert names0 output0.
  induction found as [|node found IH]; intros names0 output0 Ho H.
  - by injection H as <- <-.
  - cbn [nodes_loop] in H.
    apply bind_Ok_inv in H as (query & Hq & H).
    apply bind_Ok_inv in H as (fah & Hf & H).
    apply bind_Ok_inv in H as (output1 & Ho1 & H).
    eapply IH; [|exact H].
    destruct (truthy fah); [|by injection Ho1 as <-].
    apply bind_Ok_inv in Ho1 as (qa & _ & Ho1).
    apply bind_Ok_inv in Ho1 as (hv & Hhv & Ho1).
    eapply set_hostvars_clean; [done| |done].
    eapply hostvars_loop_clean; [|apply json_clean_empty|exact Hhv].
    intros f Hin. by eapply Hfacts.
Qed.

Lemma new_group_clean node : json_clean (new_group node).
Proof.
  unfold new_group. apply json_clean_insert; [apply json_clean_insert|].
  - apply json_clean_empty.
  - apply json_clean_empty.
  - constructor. intros x Hx. apply list_elem_of_singleton in Hx as ->. constructor.
Qed.

Lemma resource_step_clean cfg names output r output' :
  json_clean (VDict output) ->
  resource_step cfg names output r = Ok output' -> json_clean (VDict output').
Proof.
  intros Ho. unfold resource_step. destruct (bool_decide _); [by intros [= <-]|].
  intros H.
  apply bind_Ok_inv in H as (query & _ & H).
  apply bind_Ok_inv in H as (ts & _ & H).
  apply bind_Ok_inv in H as (g & _ & H).
  destruct (get_is_None output g).
  - injection H as <-. apply json_clean_insert; [done|apply new_group_clean].
  - apply append_host_Ok in H as (d & hs & Hd & Hhs & ->).
    pose proof (json_clean_lookup _ _ _ Ho Hd) as Cd.
    pose proof (json_clean_lookup _ _ _ Cd Hhs) as Chs.
    apply json_clean_insert; [done|]. apply json_clean_insert; [done|].
    constructor. intros x Hx. apply elem_of_app in Hx as [Hx|Hx].
    + inversion Chs as [| | | | | | |l Hl|]; subst. by apply Hl.
    + apply list_elem_of_singleton in Hx as ->. constructor.
Qed.

Lemma resources_loop_clean cfg names found output doc :
  json_clean (VDict output) ->
  resources_loop cfg names output found = Ok doc -> json_clean (VDict doc).
Proof.
  revert output. induction found as [|r found IH]; intros output Ho H.
  - by injection H as <-.
  - cbn [resources_loop] in H. apply bind_Ok_inv in H as (output' & Hstep & H).
    eapply IH; [|exact H]. by eapply resource_step_clean.
Qed.

(** The document of the assembler is built of values that JSON has,
    when the facts that the client returned are. *)
Lemma inventory_clean pdb cfg doc :
  facts_clean pdb -> inventory pdb cfg = Ok doc -> json_clean (VDict doc).
Proof.
  intros Hfacts H. unfold inventory in H.
  apply bind_Ok_inv in H as (query & Hq & H).
  apply bind_Ok_inv in H as (node_args & Hn & H).
  apply bind_Ok_inv in H as ([names output] & Hl & H).
  apply bind_Ok_inv in H as (query' & Hq' & H).
  apply bind_Ok_inv in H as (resource_args & Hr & H).
  eapply resources_loop_clean; [|exact H].
  eapply nodes_loop_clean; [done| |exact Hl].
  apply json_clean_insert; [apply json_clean_empty|].
  apply json_clean_insert; apply json_clean_empty.
Qed.


Lemma facts_pdb_clean : facts_clean Example.facts_pdb.
Proof.
  intros args f Hf. cbn in Hf.
  repeat (apply elem_of_cons in Hf as [->|Hf]); try (by apply elem_of_nil in Hf);
    cbn; constructor; done.
Qed.


(** ** What a run prints *)

(** X13. A run prints nothing and ends with an exception, or it prints
    once: the JSON text of a document that the assembler returned, and
    then it exits with status 0. *)
Lemma main_stdout HOME fs connect environ args :
  let r := main HOME fs connect environ args in
  (stdout r = [] /\ exists e, ended r = Raise e) \/
  (exists pdb cfg doc text,
     inventory pdb cfg = Ok doc /\ to_json (VDict doc) = Ok text /\
     stdout r = [text] /\ ended r = Ok 0).
Proof.
  unfold main. destruct (negb (Args.list args)); [left; by eauto|].
  destruct (parse_config HOME fs) as [cfg0|e]; [|left; by eauto].
  destruct (override_environment args cfg0) as [cfg1|e]; [|left; by eauto].
  destruct (getitem cfg1 "puppetdb") as [section|e]; [|left; by eauto].
  destruct (db_connect connect section environ) as [[[pdb|e] section'] environ'];
    [|left; by eauto].
  rewrite bind_Ok.
  match goal with |- context [inventory pdb ?c] => set (cfg2 := c) end.
  destruct (inventory pdb cfg2) as [doc|e] eqn:Hinv; [|left; by eauto].
  rewrite bind_Ok. destruct (to_json (VDict doc)) as [text|e] eqn:Htext; [|left; by eauto].
  right. by exists pdb, cfg2, doc, text.
Qed.

(** * Further properties *)

(** ** The first loop and the hostvars *)

Lemma meta_doc_meta_only hv : meta_only (meta_doc hv).
Proof. by exists hv. Qed.

Lemma meta_doc_initial :
  <["_meta" := VDict (<["hostvars" := VDict ∅]> ∅)]> ∅ = meta_doc ∅.
Proof. unfold meta_doc. by rewrite !insert_empty. Qed.

Lemma set_hostvars_meta_doc hv name vars :
  set_hostvars (meta_doc hv) name vars = Ok (meta_doc (<[name := VDict vars]> hv)).
Proof.
  unfold set_hostvars, meta_doc, getitem.
  rewrite lookup_singleton_eq, bind_Ok, lookup_singleton_eq, bind_Ok.
  cbn [setitem]. rewrite !bind_Ok. by rewrite !insert_singleton_eq.
Qed.

Section FirstLoop.

Variables (pdb : PuppetDB) (cfg query facts_as_hostvars : pyval).
Hypothesis Hquery : getitem cfg "query" = Ok query.
Hypothesis Hfah : getitem query "facts_as_hostvars" = Ok facts_as_hostvars.

(** Without facts to read, the loop only records the names. *)
Lemma nodes_loop_no_facts names output found :
  truthy facts_as_hostvars = false ->
  nodes_loop pdb cfg names output found = Ok (names ++ (Node.name <$> found), output).
Proof.
  intros Hf. revert names. induction found as [|node found IH]; intros names.
  - by rewrite app_nil_r.
  - cbn [nodes_loop]. rewrite Hquery, bind_Ok, Hfah, bind_Ok, Hf, bind_Ok, IH.
    by rewrite <- app_assoc.
Qed.

(** With facts to read, a turn of the loop stores the hostvars of the node. *)
Lemma nodes_loop_facts names hv node found :
  truthy facts_as_hostvars = true ->
  nodes_loop pdb cfg names (meta_doc hv) (node :: found) =
  node_hostvars pdb query (Node.name node) ≫= fun vars =>
    nodes_loop pdb cfg (names ++ [Node.name node])
      (meta_doc (<[Node.name node := VDict vars]> hv)) found.
Proof.
  intros Hf. cbn [nodes_loop]. rewrite Hquery, bind_Ok, Hfah, bind_Ok, Hf.
  unfold node_hostvars, node_facts.
  destruct (facts_query_args (Node.name node) query) as [qa|e]; [|reflexivity].
  rewrite !bind_Ok.
  destruct (hostvars_from_facts (facts pdb qa)) as [vars|e]; [|reflexivity].
  rewrite !bind_Ok. by rewrite set_hostvars_meta_doc, bind_Ok.
Qed.

Lemma nodes_loop_hostvars names hv found names' output' :
  truthy facts_as_hostvars = true ->
  nodes_loop pdb cfg names (meta_doc hv) found = Ok (names', output') ->
  exists hv',
    output' = meta_doc hv' /\
    names' = names ++ (Node.name <$> found) /\
    (forall n, n ∈ (Node.name <$> found) ->
       exists vars, node_hostvars pdb query n = Ok vars /\ hv' !! n = Some (VDict vars)) /\
    (forall n, n ∉ (Node.name <$> found) -> hv' !! n = hv !! n).
Proof.
  intros Hf. revert names hv. induction found as [|node found IH]; intros names hv H.
  - injection H as <- <-. exists hv. rewrite app_nil_r.
    split; [done|]. split; [done|]. split; [|done].
    intros n Hn. by apply elem_of_nil in Hn.
  - rewrite nodes_loop_facts in H by done.
    apply bind_Ok_inv in H as (vars & Hvars & H).
    apply IH in H as (hv' & -> & -> & Hin & Hout).
    exists hv'. split; [done|]. split; [by rewrite <- app_assoc|]. split.
    + intros n Hn. destruct (decide (n ∈ (Node.name <$> found))) as [Hn'|Hn'].
      * by apply Hin.
      * cbn [fmap list_fmap] in Hn. apply elem_of_cons in Hn as [->|Hn]; [|done].
        exists vars. split; [done|]. rewrite Hout by done. by rewrite lookup_insert_eq.
    + intros n Hn. cbn [fmap list_fmap] in Hn. apply not_elem_of_cons in Hn as [Hne Hn].
      rewrite Hout by done. by rewrite lookup_insert_ne.
Qed.

(** The loop goes through when the facts of every node are primitive. *)
Lemma nodes_loop_total names hv found :
  truthy facts_as_hostvars = true ->
  (forall node, node ∈ found ->
     exists fs, node_facts pdb query (Node.name node) = Ok fs /\
       Forall (fun f => primitive (Fact.value f)) fs) ->
  exists names' output', nodes_loop pdb cfg names (meta_doc hv) found = Ok (names', output').
Proof.
  intros Hf. revert names hv. induction found as [|node found IH]; intros names hv Hall.
  - by eexists _, _.
  - rewrite nodes_loop_facts by done.
    destruct (Hall node) as (fs & Hfs & Hprim); [by left|].
    unfold node_hostvars. rewrite Hfs, bind_Ok.
    destruct (hostvars_loop_Ok fs ∅ Hprim) as (vars & Hvars & _).
    unfold hostvars_from_facts. rewrite Hvars, bind_Ok.
    apply IH. intros node' Hin. apply Hall. by right.
Qed.

Lemma hostvars_loop_Exists facts host_vars :
  Exists (fun f => ~ primitive (Fact.value f)) facts ->
  exists e, hostvars_loop host_vars facts = Raise e.
Proof.
  revert host_vars. induction facts as [|f facts IH]; intros host_vars Hex.
  - by apply Exists_nil in Hex.
  - cbn [hostvars_loop]. rewrite fact_type_check.
    destruct (decide (~ primitive (Fact.value f))) as [Hf|Hf].
    + rewrite bool_decide_eq_true_2 by done. by eexists.
    + rewrite bool_decide_eq_false_2 by done.
      apply Exists_cons in Hex as [Hex|Hex]; [done|]. by apply IH.
Qed.

(** The loop stops at the first node that has a fact that is not
    primitive, with the error of that fact. *)
Lemma nodes_loop_bad_fact names hv found node fs :
  truthy facts_as_hostvars = true ->
  node ∈ found ->
  node_facts pdb query (Node.name node) = Ok fs ->
  Exists (fun f => ~ primitive (Fact.value f)) fs ->
  exists f, ~ primitive (Fact.value f) /\
    nodes_loop pdb cfg names (meta_doc hv) found = Raise (fact_error (Fact.name f)).
Proof.
  intros Hf Hin Hfs Hbad. revert names hv.
  induction found as [|node' found IH]; intros names hv; [by apply elem_of_nil in Hin|].
  rewrite nodes_loop_facts by done. unfold node_hostvars.
  destruct (node_facts pdb query (Node.name node')) as [fs'|e] eqn:Hfs'.
  - rewrite bind_Ok.
    destruct (hostvars_from_facts fs') as [vars|e] eqn:Hvars.
    + rewrite bind_Ok. apply elem_of_cons in Hin as [->|Hin]; [|by apply IH].
      rewrite Hfs in Hfs'. injection Hfs' as <-.
      destruct (hostvars_loop_Exists fs ∅ Hbad) as [e He].
      unfold hostvars_from_facts in Hvars. congruence.
    + apply hostvars_loop_Raise in Hvars as (f & _ & Hprim & ->). by exists f.
  - exfalso. unfold node_facts in Hfs, Hfs'.
    apply bind_Ok_inv in Hfs as (qa & Hqa & _).
    unfold facts_query_args in Hqa, Hfs'.
    apply bind_Ok_inv in Hqa as (env & Henv & Hqa).
    rewrite Henv, bind_Ok, Hfah, !bind_Ok in Hfs'. discriminate.
Qed.

End FirstLoop.

(** ** The assembler, stage by stage *)

Lemma inventory_stages pdb cfg query node_args :
  getitem cfg "query" = Ok query ->
  node_query_args query = Ok node_args ->
  inventory pdb cfg =
  nodes_loop pdb cfg [] (meta_doc ∅) (nodes pdb node_args) ≫= fun '(names, output) =>
    resource_query_args query ≫= fun resource_args =>
      resources_loop cfg names output (resources pdb resource_args).
Proof.
  intros Hq Hn. unfold inventory. rewrite Hq, !bind_Ok, Hn, !bind_Ok, meta_doc_initial.
  destruct (nodes_loop _ _ _ _ _) as [[names output]|e]; [|reflexivity].
  by rewrite ?bind_Ok.
Qed.

Lemma node_query_args_environment query node_args :
  node_query_args query = Ok node_args ->
  exists environment, getitem query "environment" = Ok environment.
Proof.
  unfold node_query_args. intros H.
  apply bind_Ok_inv in H as (last_report & _ & H).
  apply bind_Ok_inv in H as (environment & He & _). by exists environment.
Qed.

(** The metadata key is out of reach of the second loop. *)
Lemma resources_loop_keeps_meta cfg names found output doc d :
  output !! "_meta" = Some (VDict d) -> d !! "hosts" = None ->
  resources_loop cfg names output found = Ok doc ->
  doc !! "_meta" = Some (VDict d).
Proof.
  intros Hmeta Hd. revert output Hmeta.
  induction found as [|r found IH]; intros output Hmeta H.
  - by injection H as <-.
  - cbn [resources_loop] in H. apply bind_Ok_inv in H as (output' & Hstep & H).
    apply (IH output'); [|done]. clear IH H.
    unfold resource_step in Hstep. destruct (bool_decide _); [by injection Hstep as <-|].
    apply bind_Ok_inv in Hstep as (query & _ & Hstep).
    apply bind_Ok_inv in Hstep as (ts & _ & Hstep).
    apply bind_Ok_inv in Hstep as (g & _ & Hstep).
    destruct (decide (g = "_meta")) as [->|Hne].
    + unfold get_is_None in Hstep. rewrite Hmeta in Hstep.
      unfold append_host, getitem in Hstep. rewrite Hmeta, bind_Ok, Hd in Hstep.
      discriminate.
    + destruct (get_is_None output g).
      * injection Hstep as <-. by rewrite lookup_insert_ne.
      * apply append_host_Ok in Hstep as (? & ? & _ & _ & ->).
        by rewrite lookup_insert_ne.
Qed.

(** X1. The hostvars of the document: with facts requested, one entry
    for each discovered node and no other, holding what
    [hostvars_from_facts] makes of the facts asked for that node; with
    none requested, no entry at all.  The resources leave the metadata
    as the first loop built it. *)
Theorem hostvars_of_discovered_nodes (pdb : PuppetDB)
    (cfg query facts_as_hostvars : pyval) (node_args : gmap string arg)
    (doc : gmap string pyval) :
  getitem cfg "query" = Ok query ->
  getitem query "facts_as_hostvars" = Ok facts_as_hostvars ->
  node_query_args query = Ok node_args ->
  inventory pdb cfg = Ok doc ->
  exists hostvars,
    doc !! "_meta" = Some (VDict {[ "hostvars" := VDict hostvars ]}) /\
    if truthy facts_as_hostvars then
      forall n,
        (n ∈ (Node.name <$> nodes pdb node_args) ->
         exists vars, node_hostvars pdb query n = Ok vars /\
           hostvars !! n = Some (VDict vars)) /\
        (n ∉ (Node.name <$> nodes pdb node_args) -> hostvars !! n = None)
    else hostvars = ∅.
Proof.
  intros Hq Hfah Hn Hinv. rewrite (inventory_stages _ _ _ _ Hq Hn) in Hinv.
  apply bind_Ok_inv in Hinv as ([names output] & Hloop & Hinv).
  apply bind_Ok_inv in Hinv as (resource_args & _ & Hres).
  destruct (truthy facts_as_hostvars) eqn:Hf.
  - apply (nodes_loop_hostvars pdb cfg query _ Hq Hfah) in Hloop
      as (hv & -> & -> & Hin & Hout); [|done].
    exists hv. split.
    + eapply resources_loop_keeps_meta; [|done|exact Hres].
      unfold meta_doc. by rewrite lookup_singleton_eq.
    + intros n. split; [by apply Hin|]. intros Hn'. by rewrite Hout.
  - rewrite (nodes_loop_no_facts pdb cfg query _ Hq Hfah) in Hloop by done.
    injection Hloop as <- <-. exists ∅. split; [|done].
    eapply resources_loop_keeps_meta; [|done|exact Hres].
    unfold meta_doc. by rewrite lookup_singleton_eq.
Qed.

Lemma hostvars_of_discovered_nodes_witness :
  exists hostvars,
    Example.facts_doc !! "_meta" = Some (VDict {[ "hostvars" := VDict hostvars ]}) /\
    exists vars, hostvars !! "host1" = Some (VDict vars) /\
      vars !! "processors" = Some (VInt 4).
Proof.
  destruct (hostvars_of_discovered_nodes Example.facts_pdb Example.cfg
              (VDict Example.query) (VList [VStr "os"]) Example.node_args Example.facts_doc)
    as (hv & Hmeta & Hhv).
  - reflexivity.
  - reflexivity.
  - vm_compute. reflexivity.
  - vm_compute. reflexivity.
  - exists hv. split; [exact Hmeta|].
    destruct (proj1 (Hhv "host1")) as (vars & Hvars & Hlook); [by constructor|].
    exists vars. split; [exact Hlook|].
    vm_compute in Hvars. injection Hvars as <-. reflexivity.
Defined.

(** X2. A fact that is not primitive stops the whole run: when facts are
    requested and some discovered node has such a fact, the assembler
    ends with the value error of a fact that is not primitive, and builds
    no document. *)
Theorem bad_fact_aborts (pdb : PuppetDB) (cfg query facts_as_hostvars : pyval)
    (node_args : gmap string arg) (node : Node.t) (fs : list Fact.t) :
  getitem cfg "query" = Ok query ->
  getitem query "facts_as_hostvars" = Ok facts_as_hostvars ->
  truthy facts_as_hostvars = true ->
  node_query_args query = Ok node_args ->
  node ∈ nodes pdb node_args ->
  node_facts pdb query (Node.name node) = Ok fs ->
  Exists (fun f => ~ primitive (Fact.value f)) fs ->
  exists f, ~ primitive (Fact.value f) /\
    inventory pdb cfg = Raise (fact_error (Fact.name f)).
Proof.
  intros Hq Hfah Hf Hn Hin Hfs Hbad.
  destruct (nodes_loop_bad_fact pdb cfg query _ Hq Hfah [] ∅ _ node fs Hf Hin Hfs Hbad)
    as (f & Hprim & Hloop).
  exists f. split; [done|].
  by rewrite (inventory_stages _ _ _ _ Hq Hn), Hloop.
Qed.

Lemma bad_fact_aborts_witness :
  exists f, ~ primitive (Fact.value f) /\
    inventory Example.nested_pdb Example.cfg = Raise (fact_error (Fact.name f)).
Proof.
  apply (bad_fact_aborts Example.nested_pdb Example.cfg (VDict Example.query)
           (VList [VStr "os"]) Example.node_args
           (Node.Build "host1" (VStr "2018-05-01T10:00:00Z"))
           [Fact.Build "os" (VDict (<["family" := VUnicode "Debian"]> ∅))]).
  - reflexivity.
  - reflexivity.
  - reflexivity.
  - vm_compute. reflexivity.
  - by constructor.
  - vm_compute. reflexivity.
  - constructor. simpl. tauto.
Defined.

(** ** The groups of the document *)

Lemma new_group_entry node : new_group node = group_entry [VUnicode node].
Proof. reflexivity. Qed.

Lemma members_one_counts ts names g r :
  counts_for ts names g r -> members ts names g [r] = [VUnicode (Resource.node r)].
Proof.
  intros H. unfold members. rewrite filter_cons, decide_True by done. reflexivity.
Qed.

Lemma members_one_other ts names g r :
  ~ counts_for ts names g r -> members ts names g [r] = [].
Proof.
  intros H. unfold members. rewrite filter_cons, decide_False by done. reflexivity.
Qed.

Lemma getitem_Some (d : gmap string pyval) key x :
  d !! key = Some x -> getitem (VDict d) key = Ok x.
Proof. intros H. unfold getitem. by rewrite H. Qed.

(** One turn of the second loop, read on the entry of one group. *)
Lemma resource_step_entry cfg query title_strip names output r output' g hs :
  getitem cfg "query" = Ok query ->
  getitem query "title_strip" = Ok title_strip ->
  g <> "_meta" ->
  output !! g = group_of_hosts hs ->
  resource_step cfg names output r = Ok output' ->
  output' !! g = group_of_hosts (hs ++ members title_strip names g [r]).
Proof.
  intros Hq Hts Hg Hlook Hstep.
  destruct (decide (counts_for title_strip names g r)) as [Hc|Hc].
  - rewrite (members_one_counts _ _ _ _ Hc). destruct Hc as [Hin Hname].
    rewrite (resource_step_found cfg query title_strip names Hq Hts) in Hstep by done.
    rewrite Hname, bind_Ok in Hstep. unfold get_is_None in Hstep. rewrite Hlook in Hstep.
    destruct hs as [|h hs]; cbn [group_of_hosts] in Hstep.
    + injection Hstep as <-. by rewrite lookup_insert_eq, new_group_entry.
    + unfold append_host in Hstep.
      rewrite (getitem_Some output g (group_entry (h :: hs))) in Hstep by done.
      rewrite bind_Ok in Hstep. unfold group_entry in Hstep.
      rewrite (getitem_Some _ "hosts" (VList (h :: hs))) in Hstep
        by apply lookup_insert_eq.
      rewrite bind_Ok in Hstep. cbn [setitem] in Hstep.
      rewrite bind_Ok in Hstep. injection Hstep as <-.
      rewrite lookup_insert_eq, insert_insert_eq.
      reflexivity.
  - rewrite (members_one_other _ _ _ _ Hc), app_nil_r, <- Hlook.
    by apply (resource_step_untouched cfg query title_strip names output r).
Qed.

Lemma resources_loop_entry cfg query title_strip names found output doc g hs :
  getitem cfg "query" = Ok query ->
  getitem query "title_strip" = Ok title_strip ->
  g <> "_meta" ->
  output !! g = group_of_hosts hs ->
  resources_loop cfg names output found = Ok doc ->
  doc !! g = group_of_hosts (hs ++ members title_strip names g found).
Proof.
  intros Hq Hts Hg. revert output hs.
  induction found as [|r found IH]; intros output hs Hlook H.
  - injection H as <-. unfold members. by rewrite filter_nil, fmap_nil, app_nil_r.
  - cbn [resources_loop] in H. apply bind_Ok_inv in H as (output' & Hstep & H).
    rewrite (members_cons title_strip names), app_assoc.
    apply (IH output'); [|done].
    by apply (resource_step_entry cfg query title_strip names output r).
Qed.

(** X3. The groups of the document, key by key: a key other than [_meta]
    is present exactly when some resource of a discovered node normalizes
    to it, and then it holds the host list of those resources, in the
    order of the resource query, beside an empty [vars] and nothing
    else. *)
Theorem inventory_groups (pdb : PuppetDB) (cfg query title_strip : pyval)
    (node_args resource_args : gmap string arg) (doc : gmap string pyval) :
  getitem cfg "query" = Ok query ->
  getitem query "title_strip" = Ok title_strip ->
  node_query_args query = Ok node_args ->
  resource_query_args query = Ok resource_args ->
  inventory pdb cfg = Ok doc ->
  forall g, g <> "_meta" ->
    doc !! g =
    group_of_hosts
      (members title_strip (Node.name <$> nodes pdb node_args) g
         (resources pdb resource_args)).
Proof.
  intros Hq Hts Hn Hr Hinv g Hg.
  apply inventory_Ok in Hinv
    as (query' & node_args' & output & resource_args' & Hq' & Hn' & Hm & Hr' & Hloop).
  rewrite Hq in Hq'. injection Hq' as <-.
  rewrite Hn in Hn'. injection Hn' as <-.
  rewrite Hr in Hr'. injection Hr' as <-.
  apply (resources_loop_entry cfg query title_strip _ _ output doc g []); try done.
  destruct Hm as [hv ->]. by rewrite lookup_singleton_ne.
Qed.

Lemma inventory_groups_witness :
  Example.doc !! "banner_main" = Some (group_entry [VUnicode "host1"]) /\
  Example.doc !! "motd" = None.
Proof.
  pose proof (inventory_groups Example.pdb Example.cfg (VDict Example.query)
                (VStr "^motd_") Example.node_args Example.resource_args Example.doc) as H.
  split.
  - rewrite H; [vm_compute; reflexivity|reflexivity|reflexivity|
                vm_compute; reflexivity|vm_compute; reflexivity|
                vm_compute; reflexivity|discriminate].
  - rewrite H; [vm_compute; reflexivity|reflexivity|reflexivity|
                vm_compute; reflexivity|vm_compute; reflexivity|
                vm_compute; reflexivity|discriminate].
Defined.

(** ** When the assembler returns a document *)

Lemma resources_loop_total cfg query title_strip names found output d :
  getitem cfg "query" = Ok query ->
  getitem query "title_strip" = Ok title_strip ->
  (forall name, exists g, group_name title_strip name = Ok g) ->
  groups_wf output ->
  output !! "_meta" = Some (VDict d) -> d !! "hosts" = None ->
  Forall (fun r => ~ counts_for title_strip names "_meta" r) found ->
  exists doc, resources_loop cfg names output found = Ok doc.
Proof.
  intros Hq Hts Hname. revert output.
  induction found as [|r found IH]; intros output Hwf Hmeta Hd Hall.
  - by exists output.
  - apply Forall_cons in Hall as [Hr Hall].
    destruct (resource_step_total cfg query title_strip names output r d)
      as [output' Hstep]; try done.
    destruct (IH output') as [doc Hdoc]; try done.
    + by apply (resource_step_groups_wf cfg query title_strip names output r).
    + by apply (resource_step_keeps_meta cfg query title_strip names Hq Hts output r).
    + exists doc. cbn [resources_loop]. by rewrite Hstep, bind_Ok.
Qed.

Lemma group_name_total pattern r name :
  Re.parse pattern = Some r -> exists g, group_name (VStr pattern) name = Ok g.
Proof. intros Hp. eexists. by apply group_name_parsed. Qed.

(** X4. The assembler returns a document whenever the keys it reads are
    in the query section, the strip pattern is one that [re] compiles,
    every fact asked for (when facts are requested) has a primitive value,
    and no resource of a discovered node normalizes to [_meta]. *)
Theorem inventory_succeeds (pdb : PuppetDB) (cfg query facts_as_hostvars : pyval)
    (pattern : string) (r : Re.regex) (node_args resource_args : gmap string arg) :
  getitem cfg "query" = Ok query ->
  node_query_args query = Ok node_args ->
  resource_query_args query = Ok resource_args ->
  getitem query "facts_as_hostvars" = Ok facts_as_hostvars ->
  getitem query "title_strip" = Ok (VStr pattern) ->
  Re.parse pattern = Some r ->
  (truthy facts_as_hostvars = true ->
   forall node, node ∈ nodes pdb node_args ->
     exists fs, node_facts pdb query (Node.name node) = Ok fs /\
       Forall (fun f => primitive (Fact.value f)) fs) ->
  Forall (fun res => ~ counts_for (VStr pattern) (Node.name <$> nodes pdb node_args)
                        "_meta" res)
    (resources pdb resource_args) ->
  exists doc, inventory pdb cfg = Ok doc.
Proof.
  intros Hq Hn Hr Hfah Hts Hp Hfacts Hmeta.
  rewrite (inventory_stages _ _ _ _ Hq Hn).
  assert (exists names output,
            nodes_loop pdb cfg [] (meta_doc ∅) (nodes pdb node_args) = Ok (names, output))
    as (names & output & Hloop).
  { destruct (truthy facts_as_hostvars) eqn:Hf.
    - by apply (nodes_loop_total pdb cfg query facts_as_hostvars Hq Hfah); [|apply Hfacts].
    - rewrite (nodes_loop_no_facts pdb cfg query facts_as_hostvars Hq Hfah) by done.
      by eauto. }
  rewrite Hloop, bind_Ok, Hr, bind_Ok.
  apply nodes_loop_Ok in Hloop as [-> Hm]; [|apply meta_doc_meta_only].
  cbn [app]. pose proof (meta_only_groups_wf _ Hm) as Hwf. destruct Hm as [hv ->].
  apply (resources_loop_total cfg query (VStr pattern) _ _ _
           {[ "hostvars" := VDict hv ]}); try done.
  intros name. by apply (group_name_total pattern r).
Qed.

Lemma inventory_succeeds_witness :
  exists doc, inventory Example.facts_pdb Example.cfg = Ok doc.
Proof.
  apply (inventory_succeeds Example.facts_pdb Example.cfg (VDict Example.query)
           (VList [VStr "os"]) "^motd_" Example.title_strip
           Example.node_args Example.resource_args).
  - reflexivity.
  - vm_compute. reflexivity.
  - vm_compute. reflexivity.
  - reflexivity.
  - reflexivity.
  - reflexivity.
  - intros _ node Hnode. apply list_elem_of_singleton in Hnode as ->.
    eexists. split; [vm_compute; reflexivity|].
    repeat constructor.
  - constructor; [|constructor]. intros [_ H]. vm_compute in H. discriminate H.
Defined.

(** X5. When the node query finds no node, the document is the metadata
    key alone with no hostvars, whatever the resource query returns: no
    resource is read for its title, and neither [title_strip] nor
    [facts_as_hostvars] is looked up. *)
Theorem no_nodes_bare_document (pdb : PuppetDB) (cfg query : pyval)
    (node_args resource_args : gmap string arg) :
  getitem cfg "query" = Ok query ->
  node_query_args query = Ok node_args ->
  resource_query_args query = Ok resource_args ->
  nodes pdb node_args = [] ->
  inventory pdb cfg = Ok (meta_doc ∅).
Proof.
  intros Hq Hn Hr Hnone. rewrite (inventory_stages _ _ _ _ Hq Hn), Hnone.
  cbn [nodes_loop]. rewrite bind_Ok, Hr, bind_Ok.
  induction (resources pdb resource_args) as [|res found IH]; [done|].
  cbn [resources_loop]. unfold resource_step.
  rewrite bool_decide_eq_true_2 by apply not_elem_of_nil.
  by rewrite bind_Ok.
Qed.

Lemma no_nodes_bare_document_witness :
  inventory Example.empty_pdb
    (VDict {[ "query" := VDict (delete "facts_as_hostvars"
                                  (delete "title_strip" Example.query)) ]}) =
  Ok (meta_doc ∅).
Proof.
  eapply (no_nodes_bare_document Example.empty_pdb).
  - reflexivity.
  - vm_compute. reflexivity.
  - vm_compute. reflexivity.
  - reflexivity.
Defined.

(** ** The shape of a group name *)

Ltac str_simpl_in H := rewrite ?string_app_cons, ?string_app_nil_l in H.

Lemma String_inj c s c' s' : String c s = String c' s' -> c = c' /\ s = s'.
Proof. intros H. by injection H. Qed.

Lemma replace_colons_free s a b :
  replace_colons s <> (a ++ "::" ++ b)%string.
Proof.
  revert a b. induction s as [s IH] using string_length_ind. intros a b Heq.
  destruct s as [|c1 [|c2 s2]].
  - cbn in Heq. destruct a; str_simpl_in Heq; discriminate Heq.
  - cbn in Heq. destruct a as [|x [|y a]]; str_simpl_in Heq; discriminate Heq.
  - rewrite replace_colons_cons2 in Heq.
    destruct (bool_decide_reflect (c1 = ":"%char)) as [Hc1|Hc1];
      destruct (bool_decide_reflect (c2 = ":"%char)) as [Hc2|Hc2]; cbn [andb] in Heq.
    + destruct a as [|x a]; str_simpl_in Heq; [discriminate Heq|].
      apply String_inj in Heq as [_ Heq].
      apply (IH s2) in Heq; [done|cbn; lia].
    + destruct a as [|x a]; str_simpl_in Heq.
      * apply String_inj in Heq as [_ Heq].
        rewrite replace_colons_head in Heq by done.
        apply String_inj in Heq as [Heq _]. done.
      * apply String_inj in Heq as [_ Heq].
        apply (IH (String c2 s2)) in Heq; [done|cbn; lia].
    + destruct a as [|x a]; str_simpl_in Heq; [apply String_inj in Heq as [Heq _]; done|].
      apply String_inj in Heq as [_ Heq].
      apply (IH (String c2 s2)) in Heq; [done|cbn; lia].
    + destruct a as [|x a]; str_simpl_in Heq; [apply String_inj in Heq as [Heq _]; done|].
      apply String_inj in Heq as [_ Heq].
      apply (IH (String c2 s2)) in Heq; [done|cbn; lia].
Qed.

Lemma replace_colons_length s :
  (String.length (replace_colons s) <= String.length s)%nat.
Proof.
  induction s as [s IH] using string_length_ind.
  destruct s as [|c1 [|c2 s2]]; [done|done|].
  rewrite replace_colons_cons2.
  destruct (_ && _); cbn [String.length].
  - specialize (IH s2). cbn [String.length] in IH. lia.
  - specialize (IH (String c2 s2)). cbn [String.length] in IH. lia.
Qed.

Lemma lower_length s : String.length (lower s) = String.length s.
Proof. induction s as [|c s IH]; [done|]. cbn. by rewrite IH. Qed.

Lemma sub_loop_length r bos skip after s :
  (String.length (Re.sub_loop r "" bos skip after s) <= String.length s)%nat.
Proof.
  revert bos skip after. induction s as [|c s IH]; intros bos skip after.
  - destruct skip; cbn [Re.sub_loop]; [|done].
    destruct (Re.match_here r bos "") as [[|n]|]; [by destruct after|done|done].
  - destruct skip as [|skip]; cbn [Re.sub_loop].
    + destruct (Re.match_here r bos (String c s)) as [[|n]|].
      * assert ((if after then "" else "")%string = ""%string) as -> by by destruct after.
        rewrite string_app_nil_l. cbn [String.length]. specialize (IH false 0%nat false). lia.
      * rewrite string_app_nil_l. specialize (IH false n true). cbn [String.length]. lia.
      * cbn [String.length]. specialize (IH false 0%nat false). lia.
    + specialize (IH false skip true). cbn [String.length]. lia.
Qed.

(** X6. A group name that the transform returns is in lower case, holds
    no [::] anywhere, and is not longer than the title it was made of. *)
Theorem group_name_normal_form (title_strip : pyval) (name group : string) :
  group_name title_strip name = Ok group ->
  lower group = group /\
  (forall a b, group <> (a ++ "::" ++ b)%string) /\
  (String.length group <= String.length name)%nat.
Proof.
  unfold group_name. intros H.
  apply bind_Ok_inv in H as (pattern & _ & H).
  apply bind_Ok_inv in H as (stripped & Hs & H).
  rewrite sub_colons in H. injection H as <-.
  unfold Re.sub in Hs. destruct (Re.parse pattern) as [r|]; [|discriminate Hs].
  injection Hs as <-. split; [|split].
  - by rewrite <- replace_colons_lower, lower_idem.
  - intros a b. apply replace_colons_free.
  - etransitivity; [apply replace_colons_length|].
    rewrite lower_length. apply sub_loop_length.
Qed.

Lemma group_name_normal_form_witness :
  lower "banner_main" = "banner_main"%string /\
  (forall a b, "banner_main"%string <> (a ++ "::" ++ b)%string) /\
  (String.length "banner_main" <= String.length "motd_Banner::Main")%nat.
Proof.
  apply (group_name_normal_form (VStr "^motd_") "motd_Banner::Main" "banner_main").
  reflexivity.
Defined.

(** X7. A title in which the strip pattern finds no match keeps all its
    characters: its group name is the title in lower case with every
    [::] replaced by [_]. *)
Theorem group_name_unmatched (pattern : string) (r : Re.regex) (name : string) :
  Re.parse pattern = Some r ->
  Re.search r name = false ->
  group_name (VStr pattern) name = Ok (replace_colons (lower name)).
Proof.
  intros Hp Hs. rewrite (group_name_parsed _ _ _ Hp). unfold strip.
  by rewrite (sub_loop_no_match r "" name true false Hs).
Qed.

Lemma group_name_unmatched_witness :
  group_name (VStr "^motd_") "Apache::Vhost" = Ok "apache_vhost"%string.
Proof.
  apply (group_name_unmatched "^motd_" Example.title_strip "Apache::Vhost").
  - reflexivity.
  - reflexivity.
Defined.

(** ** A strip pattern that names a prefix *)

Lemma pstep_plain st c :
  Re.ps_esc st = false -> Re.special c = false ->
  Re.pstep st c =
  Some (Re.PState (Re.ps_alts st) (Re.flush st) (Some (Re.Lit c)) false).
Proof.
  intros Hesc Hc. unfold Re.pstep. rewrite Hesc, Hc.
  repeat match goal with
  | |- context [bool_decide (c = ?x)] =>
      destruct (bool_decide_reflect (c = x)) as [->|_]; [vm_compute in Hc; discriminate Hc|]
  end.
  reflexivity.
Qed.

Lemma pscan_plain p alts items atom :
  plain p = true ->
  exists st,
    Re.pscan (Re.PState alts items atom false) p = Some st /\
    Re.ps_alts st = alts /\ Re.ps_esc st = false /\
    Re.flush st = Re.flush (Re.PState alts items atom false) ++ literals p.
Proof.
  revert items atom. induction p as [|c p IH]; intros items atom Hp.
  - eexists. split; [reflexivity|]. by rewrite app_nil_r.
  - cbn [plain] in Hp. apply andb_prop in Hp as [Hc Hp].
    apply negb_true_iff in Hc.
    cbn [Re.pscan]. rewrite pstep_plain by done. cbn [Re.ps_alts].
    destruct (IH (Re.flush (Re.PState alts items atom false)) (Some (Re.Lit c)) Hp)
      as (st & Hscan & Halts & Hesc & Hflush).
    exists st. split; [done|]. split; [done|]. split; [done|].
    rewrite Hflush. unfold Re.flush at 1. cbn [Re.ps_atom Re.ps_items literals].
    by rewrite <- app_assoc.
Qed.

Lemma parse_anchored p :
  plain p = true ->
  Re.parse (String "^" p) = Some (Re.Cat Re.Bol (Re.seq_of (literals p))).
Proof.
  intros Hp. unfold Re.parse. cbn [Re.pscan].
  change (Re.pstep (Re.PState [] [] None false) "^")
    with (Some (Re.PState [] [Re.Bol] None false)).
  destruct (pscan_plain p [] [Re.Bol] None Hp) as (st & -> & Halts & -> & ->).
  by rewrite Halts.
Qed.

Lemma rmatch_literals p k bos s :
  Re.rmatch (Re.seq_of (literals p)) k bos s =
  if starts_with p s
  then k (if bool_decide (p = "") then bos else false) (string_drop (String.length p) s)
  else None.
Proof.
  revert bos s. induction p as [|c p IH]; intros bos s; [done|].
  cbn [literals Re.seq_of foldr Re.rmatch].
  destruct s as [|c' s]; [done|]. cbn [starts_with String.length string_drop].
  destruct (bool_decide_reflect (c = c')) as [->|Hne]; [|done]. cbn [andb].
  change (foldr Re.Cat Re.Eps (literals p)) with (Re.seq_of (literals p)).
  rewrite IH. destruct (starts_with p s); [|done].
  rewrite (bool_decide_eq_false_2 (String c' p = "")) by done.
  by destruct (bool_decide (p = "")).
Qed.

Lemma string_drop_length n s :
  (n <= String.length s)%nat ->
  String.length (string_drop n s) = (String.length s - n)%nat.
Proof.
  revert s. induction n as [|n IH]; intros s Hn; [cbn; lia|].
  destruct s as [|c s]; [cbn in Hn; lia|]. cbn in *. apply IH. lia.
Qed.

Lemma starts_with_length p s :
  starts_with p s = true -> (String.length p <= String.length s)%nat.
Proof.
  revert s. induction p as [|c p IH]; intros s H; [cbn; lia|].
  destruct s as [|c' s]; [done|]. cbn in *.
  apply andb_prop in H as [_ H]. apply IH in H. lia.
Qed.

Lemma match_here_anchored p bos s :
  Re.match_here (Re.Cat Re.Bol (Re.seq_of (literals p))) bos s =
  if bos && starts_with p s then Some (String.length p) else None.
Proof.
  unfold Re.match_here. cbn [Re.rmatch]. destruct bos; [|done]. cbn [andb].
  rewrite rmatch_literals. destruct (starts_with p s) eqn:Hs; [|done].
  f_equal. apply starts_with_length in Hs.
  rewrite string_drop_length by done. lia.
Qed.

Lemma search_from_anchored p s :
  Re.search_from (Re.Cat Re.Bol (Re.seq_of (literals p))) false s = false.
Proof.
  induction s as [|c s IH]; cbn [Re.search_from]; by rewrite match_here_anchored.
Qed.

Lemma sub_loop_skip r repl n s :
  (forall t, Re.search_from r false t = false) ->
  Re.sub_loop r repl false n true s = string_drop n s.
Proof.
  intros Hr. revert s. induction n as [|n IH]; intros s.
  - cbn [string_drop]. by apply sub_loop_no_match.
  - destruct s as [|c s]; [done|]. cbn [Re.sub_loop string_drop]. apply IH.
Qed.

(** X8. A strip pattern [^p], with [p] free of special characters, takes
    the prefix [p] off the titles that start with it and leaves every
    other title whole, also where [p] occurs further on in it; the rest is
    lowercased and its [::] replaced. *)
Theorem group_name_anchored_prefix (p name : string) :
  plain p = true ->
  group_name (VStr (String "^" p)) name =
  Ok (replace_colons (lower
        (if starts_with p name then string_drop (String.length p) name else name))).
Proof.
  intros Hp. rewrite (group_name_parsed _ _ _ (parse_anchored p Hp)).
  do 3 f_equal. unfold strip.
  set (r := Re.Cat Re.Bol (Re.seq_of (literals p))).
  assert (forall t after, Re.sub_loop r "" false 0 after t = t) as Hcopy.
  { intros t after. apply sub_loop_no_match, search_from_anchored. }
  destruct name as [|c name]; cbn [Re.sub_loop]; unfold r at 1;
    rewrite match_here_anchored; cbn [andb].
  - destruct p as [|c p]; reflexivity.
  - destruct (starts_with p (String c name)) eqn:Hs.
    + destruct p as [|c' p]; cbn [String.length].
      * by rewrite string_app_nil_l, Hcopy.
      * rewrite string_app_nil_l. cbn [string_drop].
        apply sub_loop_skip. apply search_from_anchored.
    + by rewrite Hcopy.
Qed.

Lemma group_name_anchored_prefix_witness :
  group_name (VStr "^motd_") "motd_Banner::motd_Main" = Ok "banner_motd_main"%string.
Proof.
  apply (group_name_anchored_prefix "motd_" "motd_Banner::motd_Main").
  reflexivity.
Defined.

(** ** The run as a whole *)

Lemma parse_config_none HOME fs :
  isfile fs (HOME_CONFIG HOME) && access_R_OK fs (HOME_CONFIG HOME) = false ->
  isfile fs GLOBAL_CONFIG && access_R_OK fs GLOBAL_CONFIG = false ->
  parse_config HOME fs = Ok (VDict ∅).
Proof.
  intros H1 H2. unfold parse_config, CONFIG_FILES. cbn [parse_config_loop].
  by rewrite H1, H2.
Qed.

(** X9. With no readable configuration file a run ends with a key error
    and prints nothing, whatever the server: on [query] when
    [--environment] carries a value, since the override is written first,
    and on [puppetdb] otherwise.  The process environment is as it was. *)
Theorem main_without_config (HOME : string) (fs : filesystem)
    (connect : gmap string pyval -> result PuppetDB) (environ : gmap string string)
    (args : Args.t) :
  Args.list args = true ->
  isfile fs (HOME_CONFIG HOME) && access_R_OK fs (HOME_CONFIG HOME) = false ->
  isfile fs GLOBAL_CONFIG && access_R_OK fs GLOBAL_CONFIG = false ->
  let r := main HOME fs connect environ args in
  ended r =
    Raise (KeyError
             match Args.environment args with
             | Some env => if decide (env = "") then "puppetdb" else "query"
             | None => "puppetdb"
             end) /\
  stdout r = [] /\ environ_after r = environ.
Proof.
  intros Hlist H1 H2. unfold main. rewrite Hlist, (parse_config_none _ _ H1 H2).
  cbn [negb]. unfold override_environment.
  destruct (Args.environment args) as [env|]; [|done].
  destruct (decide (env = "")) as [->|Hne].
  - by rewrite bool_decide_eq_true_2.
  - by rewrite bool_decide_eq_false_2.
Qed.

Lemma main_without_config_witness :
  ended (main "/root" Example.no_fs Example.connect ∅ Example.staging_args) =
    Raise (KeyError "query") /\
  stdout (main "/root" Example.no_fs Example.connect ∅ Example.staging_args) = [] /\
  environ_after (main "/root" Example.no_fs Example.connect ∅ Example.staging_args) = ∅.
Proof.
  apply (main_without_config "/root" Example.no_fs Example.connect ∅ Example.staging_args).
  - reflexivity.
  - reflexivity.
  - reflexivity.
Defined.

Lemma db_connect_environ connect section environ pdb section' environ' k :
  db_connect connect section environ = (pdb, section', environ') ->
  k <> "REQUESTS_CA_BUNDLE" ->
  environ' !! k = environ !! k.
Proof.
  unfold db_connect. intros H Hk.
  destruct section as [| | | | | | | |d]; try by injection H as _ _ <-.
  destruct (truthy _); [|by injection H as _ _ <-].
  destruct (default VNone (d !! "ca_cert")); try by injection H as _ _ <-.
  - injection H as _ _ <-. by rewrite lookup_insert_ne.
  - injection H as _ _ <-. by rewrite lookup_insert_ne.
Qed.

(** X10. A run changes one variable of the process environment at most:
    every other than [REQUESTS_CA_BUNDLE] is after the run what it was
    before, however the run ends. *)
Theorem main_environ_frame (HOME : string) (fs : filesystem)
    (connect : gmap string pyval -> result PuppetDB) (environ : gmap string string)
    (args : Args.t) (k : string) :
  k <> "REQUESTS_CA_BUNDLE" ->
  environ_after (main HOME fs connect environ args) !! k = environ !! k.
Proof.
  intros Hk. unfold main. destruct (negb (Args.list args)); [done|].
  destruct (parse_config HOME fs) as [cfg0|e]; [|done].
  destruct (override_environment args cfg0) as [cfg1|e]; [|done].
  destruct (getitem cfg1 "puppetdb") as [section|e]; [|done].
  destruct (db_connect connect section environ) as [[pdb section'] environ'] eqn:Hdb.
  apply (db_connect_environ _ _ _ _ _ _ k) in Hdb; [|done].
  by destruct (_ ≫= _).
Qed.

Lemma main_environ_frame_witness :
  environ_after (main "/root" Example.ca_fs Example.connect {[ "PATH" := "/usr/bin" ]}
                   Example.list_args) !! "PATH" = Some "/usr/bin"%string.
Proof.
  rewrite (main_environ_frame "/root" Example.ca_fs Example.connect
             {[ "PATH" := "/usr/bin" ]} Example.list_args "PATH").
  - reflexivity.
  - discriminate.
Defined.

Lemma override_environment_puppetdb args cfg cfg1 :
  override_environment args cfg = Ok cfg1 ->
  getitem cfg1 "puppetdb" = getitem cfg "puppetdb".
Proof.
  unfold override_environment. intros H.
  destruct (Args.environment args) as [env|]; [|by injection H as <-].
  destruct (bool_decide (env = "")); [by injection H as <-|].
  apply bind_Ok_inv in H as (query & _ & H).
  apply bind_Ok_inv in H as (query' & _ & H).
  destruct cfg as [| | | | | | | |d]; try discriminate H.
  injection H as <-. unfold getitem. by rewrite lookup_insert_ne.
Qed.

Lemma db_connect_ca_cert connect (section : gmap string pyval) environ path :
  section !! "ca_cert" = Some (VStr path) -> path <> "" ->
  db_connect connect (VDict section) environ =
  (connect (delete "ca_cert" section), VDict (delete "ca_cert" section),
   <["REQUESTS_CA_BUNDLE" := path]> environ).
Proof.
  intros Hca Hpath. unfold db_connect. rewrite Hca. simpl.
  by rewrite bool_decide_eq_false_2.
Qed.

(** X11. A CA bundle in the connection section is exported before the
    server is contacted: [REQUESTS_CA_BUNDLE] holds its path after the
    run however the run ends, the client is given the section without it,
    and a connection that fails ends the run with its exception and
    nothing printed. *)
Theorem ca_bundle_exported (HOME : string) (fs : filesystem)
    (connect : gmap string pyval -> result PuppetDB) (environ : gmap string string)
    (args : Args.t) (cfg cfg1 : pyval) (section : gmap string pyval) (path : string) :
  Args.list args = true ->
  parse_config HOME fs = Ok cfg ->
  override_environment args cfg = Ok cfg1 ->
  getitem cfg "puppetdb" = Ok (VDict section) ->
  section !! "ca_cert" = Some (VStr path) ->
  path <> "" ->
  let r := main HOME fs connect environ args in
  environ_after r = <["REQUESTS_CA_BUNDLE" := path]> environ /\
  (forall e, connect (delete "ca_cert" section) = Raise e ->
     ended r = Raise e /\ stdout r = []) /\
  (forall status, ended r = Ok status ->
     exists pdb, connect (delete "ca_cert" section) = Ok pdb).
Proof.
  intros Hlist Hcfg Hover Hsection Hca Hpath. unfold main.
  rewrite Hlist, Hcfg, Hover, (override_environment_puppetdb _ _ _ Hover), Hsection.
  cbn [negb]. rewrite (db_connect_ca_cert _ _ _ _ Hca Hpath).
  destruct (connect (delete "ca_cert" section)) as [pdb|e0] eqn:Hconnect.
  - rewrite bind_Ok. destruct (_ ≫= _); cbn; (split; [done|]); split; try done.
    intros status _. by exists pdb.
  - cbn. split; [done|]. split; [|done].
    intros e He. by injection He as <-.
Qed.

Lemma ca_bundle_exported_witness :
  environ_after (main "/root" Example.ca_fs Example.refused ∅ Example.list_args) =
    {[ "REQUESTS_CA_BUNDLE" := "/etc/ssl/ca.pem"%string ]} /\
  ended (main "/root" Example.ca_fs Example.refused ∅ Example.list_args) =
    Raise (RuntimeError "connection refused").
Proof.
  destruct (ca_bundle_exported "/root" Example.ca_fs Example.refused ∅ Example.list_args
              Example.ca_cfg Example.ca_cfg
              (<["ca_cert" := VStr "/etc/ssl/ca.pem"]>
                 (<["host" := VStr "puppetdb.example.org"]> ∅))
              "/etc/ssl/ca.pem") as (Henv & Hfail & _).
  - reflexivity.
  - reflexivity.
  - reflexivity.
  - reflexivity.
  - reflexivity.
  - discriminate.
  - split; [by rewrite Henv, insert_empty|].
    by apply Hfail.
Defined.
